(** * Overray backend: the GraphQL resolvers

    A shallow embedding of [src/graphql/resolvers.js]: the [products]
    query (the filter compiler and the product read it issues) and the
    address, cart, wishlist and review mutations, over an explicit model
    of the five collections they touch; further down, the token helpers
    of [src/middleware/jwtHelper.js] and the account routes of
    [src/routes/auth.js].

    Conventions of the embedding.
    - A resolver that awaits the store is a computation in the monad [M]:
      it takes the store, returns a value or throws, and hands back the
      store as it stands at that point.
    - A collection is the list of its documents in insertion order;
      [findOne] is the first document satisfying the query, [save] of a
      loaded document writes it back in its place, [save] of a new
      document appends it.
    - An input field of a GraphQL object is [Undefined] (not supplied),
      [Null] or a value, as the JavaScript code sees it.
    - Numbers are integers ([Z]): the code only adds and compares them.
    - The schema declarations ([src/database/schemas]) and the driver
      lie outside this development.  What the code asks of them is
      taken as a parameter: the identifier type [Id],
      the coercion [ObjectId] (a string to an identifier, or an
      exception), JavaScript's [===] between a stored [productId] and a
      supplied one, the case-insensitive pattern match and the ordering
      a sort document denotes. *)

From stdpp Require Import base numbers list strings.

Open Scope string_scope.
Open Scope list_scope.
Open Scope Z_scope.

(** ** JavaScript values *)

Inductive js (A : Type) : Type :=
  | Undefined
  | Null
  | Val (a : A).
Arguments Undefined {A}.
Arguments Null {A}.
Arguments Val {A} a.

(** [v !== undefined] *)
Definition defined {A} (v : js A) : bool :=
  match v with Undefined => false | _ => true end.

(** A number or [null], as stored in a line item. *)
Definition num := option Z.

(** [ToNumber]: [null] is [0]. *)
Definition to_number (v : num) : Z := default 0 v.

(** [a += b] on numbers-or-null. *)
Definition js_add (a b : num) : num := Some (to_number a + to_number b).

(** [!q ? 1 : q] *)
Definition or_one (q : num) : num :=
  match q with
  | Some z => if z =? 0 then Some 1 else Some z
  | None => Some 1
  end.

(** ** Exceptions *)

Inductive error : Type :=
  | GraphQLError (message code : string) (status : Z)
  | TypeError (message : string)
  | BSONError.

Definition Unauthenticated : error :=
  GraphQLError "You are not authorized to perform this action."
               "UNAUTHENTICATED" 401.

(** [limit = lim] where [limit] is declared [const]. *)
Definition ConstAssignment : error :=
  TypeError "Assignment to constant variable.".

Inductive Res (A : Type) : Type :=
  | Ok (a : A)
  | Throw (e : error).
Arguments Ok {A} a.
Arguments Throw {A} e.

#[global] Instance Res_ret : MRet Res := λ A a, Ok a.
#[global] Instance Res_bind : MBind Res := λ A B k r,
  match r with Ok a => k a | Throw e => Throw e end.

(** [l.map(f)] where [f] may throw: stops at the first exception. *)
Fixpoint map_throw {A B} (f : A → Res B) (l : list A) : Res (list B) :=
  match l with
  | [] => Ok []
  | x :: l' => y ← f x; ys ← map_throw f l'; Ok (y :: ys)
  end.

(** ** Documents *)

Section Documents.
Context {Id : Type}.

Record User := { _id : Id; isInternal : bool }.

(** The GraphQL context: [user] is [null] without a valid token
    ([verifyGraphqlToken]). *)
Record Context := { user : option User }.

Record Address (Fields : Type) :=
  { address_user_id : Id; address_fields : Fields }.

Record Product := {
  product__id : Id;
  product_name : string;
  product_code : string;
  product_size : string;
  product_color : string;
  product_price : Z;
  product_categories : list Id;
  product_keywords : list string
}.

Record LineItem := { productId : Id; quantity : num }.

Record Cart := { cart_user_id : Id; cart_products : list LineItem }.

Record Wishlist := { wishlist_user_id : Id; wishlist_products : list Id }.

Record Review := {
  review_user_id : Id;
  review_product_id : Id;
  review_text : string;
  review_score : Z
}.

(** The collections behind [schemas.address], [schemas.product],
    [schemas.cart], [schemas.wishlist] and [schemas.product_review]. *)
Record Store (Fields : Type) := {
  address : list (Address Fields);
  product : list Product;
  cart : list Cart;
  wishlist : list Wishlist;
  product_review : list Review
}.
End Documents.

Arguments User Id : clear implicits.
Arguments Context Id : clear implicits.
Arguments Address Id Fields : clear implicits.
Arguments Product Id : clear implicits.
Arguments LineItem Id : clear implicits.
Arguments Cart Id : clear implicits.
Arguments Wishlist Id : clear implicits.
Arguments Review Id : clear implicits.
Arguments Store Id Fields : clear implicits.
Arguments address_user_id {Id Fields} _.
Arguments address_fields {Id Fields} _.
Arguments Build_Address {Id Fields} _ _.
Arguments address {Id Fields} _.
Arguments product {Id Fields} _.
Arguments cart {Id Fields} _.
Arguments wishlist {Id Fields} _.
Arguments product_review {Id Fields} _.
Arguments Build_Store {Id Fields} _ _ _ _ _.

(** ** The store monad *)

Definition M (S A : Type) : Type := S → Res A * S.

Definition ret {S A} (a : A) : M S A := λ st, (Ok a, st).
Definition bind {S A B} (m : M S A) (k : A → M S B) : M S B := λ st,
  match m st with
  | (Ok a, st') => k a st'
  | (Throw e, st') => (Throw e, st')
  end.
Definition get {S} : M S S := λ st, (Ok st, st).
Definition put {S} (st : S) : M S unit := λ _, (Ok tt, st).
Definition lift {S A} (r : Res A) : M S A := λ st, (r, st).

#[global] Instance M_ret {S} : MRet (M S) := λ A, ret.
#[global] Instance M_bind {S} : MBind (M S) := λ A B k m, bind m k.

(** ** The [products] query: inputs and the compiled read *)

(** [args.filter.sort] *)
Record SortInput := { field : string; order : js string }.

(** [args.filter], field by field as the resolver destructures it. *)
Record FilterInput := {
  arg__id : js string;
  arg_categories : js (list string);
  arg_size : js string;
  arg_color : js string;
  arg_minPrice : js Z;
  arg_maxPrice : js Z;
  arg_name : js string;
  arg_limit : js Z;
  arg_start : js Z;
  arg_sort : js SortInput;
  arg_code : js string;
  arg_keywords : js (list string)
}.

(** [filter.price]: the keys [$gte] and [$lte]; [Undefined] is a key
    that was never assigned. *)
Record PriceClause := { gte : js Z; lte : js Z }.

(** The object [filter] handed to [find]: [None] is a key that was never
    assigned.  [filter_name] is the pattern of
    [{ $regex: name, $options: "i" }], [filter_categories] and
    [filter_keywords] the set of [{ $in: ... }]. *)
Record Filter (Id : Type) := {
  filter__id : option Id;
  filter_name : option string;
  filter_size : option string;
  filter_color : option string;
  filter_code : option string;
  filter_categories : option (list Id);
  filter_keywords : option (list string);
  filter_price : option PriceClause
}.
Arguments filter__id {Id} _.
Arguments filter_name {Id} _.
Arguments filter_size {Id} _.
Arguments filter_color {Id} _.
Arguments filter_code {Id} _.
Arguments filter_categories {Id} _.
Arguments filter_keywords {Id} _.
Arguments filter_price {Id} _.
Arguments Build_Filter {Id} _ _ _ _ _ _ _ _.

(** The object [sort]: empty, or the one key the resolver assigns, with
    [1] (ascending) or [-1] (descending). *)
Definition SortDoc := list (string * Z).

(** What the resolver passes to
    [schemas.product.find(filter).limit(limit).skip(start).sort(sort)]. *)
Record Query (Id : Type) := {
  q_filter : Filter Id;
  q_limit : Z;
  q_start : Z;
  q_sort : SortDoc
}.
Arguments q_filter {Id} _.
Arguments q_limit {Id} _.
Arguments q_start {Id} _.
Arguments q_sort {Id} _.
Arguments Build_Query {Id} _ _ _ _.

(** [const filter = {}] *)
Definition empty_filter {Id} : Filter Id :=
  Build_Filter None None None None None None None None.

(** ** How the store reads a filter *)

(** A key of the filter that was never assigned constrains nothing. *)
Definition clause {A} (c : option A) (test : A → bool) : bool :=
  match c with Some a => test a | None => true end.

(** One bound of the price clause against a numeric price.  A [null]
    bound is satisfied by no number. *)
Definition bound (b : js Z) (test : Z → bool) : bool :=
  match b with Undefined => true | Null => false | Val z => test z end.

Definition price_ok (c : PriceClause) (price : Z) : bool :=
  bound (gte c) (λ lo, lo <=? price) && bound (lte c) (λ hi, price <=? hi).

(** [{ $in: set }] on an array field: some element of the array is in
    the set. *)
Definition any_in {A} `{EqDecision A} (set values : list A) : bool :=
  existsb (λ v, bool_decide (v ∈ set)) values.

(** ** Mutation inputs *)

(** [args.products] of [addProductToCart] *)
Record CartInput (Id : Type) := { ci_product_id : Id; ci_quantity : js Z }.
Arguments ci_product_id {Id} _.
Arguments ci_quantity {Id} _.
Arguments Build_CartInput {Id} _ _.

(** [args.review] of [addProductReview] *)
Record ReviewInput (Id : Type) :=
  { ri_review : string; ri_score : Z; ri_product_id : Id }.
Arguments ri_review {Id} _.
Arguments ri_score {Id} _.
Arguments ri_product_id {Id} _.
Arguments Build_ReviewInput {Id} _ _ _.

(** Writing one collection of the store back. *)
Section StoreUpdate.
Context {Id Fields : Type}.
Implicit Types st : Store Id Fields.

Definition with_address st l : Store Id Fields :=
  Build_Store l (product st) (cart st) (wishlist st) (product_review st).
Definition with_cart st l : Store Id Fields :=
  Build_Store (address st) (product st) l (wishlist st) (product_review st).
Definition with_wishlist st l : Store Id Fields :=
  Build_Store (address st) (product st) (cart st) l (product_review st).
Definition with_product_review st l : Store Id Fields :=
  Build_Store (address st) (product st) (cart st) (wishlist st) l.
End StoreUpdate.

(** [if (s)] on a string field, keeping the string when it is truthy. *)
Definition truthy_string (v : js string) : option string :=
  match v with
  | Val s => if String.eqb s "" then None else Some s
  | _ => None
  end.

(** [a && a.length > 0], keeping the array when the test passes. *)
Definition non_empty {A} (v : js (list A)) : option (list A) :=
  match v with
  | Val (x :: l) => Some (x :: l)
  | _ => None
  end.

(** [sort[key] = dir] on the object literal [sort = {}].  For the key
    ["__proto__"] the assignment reaches the setter that
    [Object.prototype] has under that name, which ignores a number:
    [sort] gets no key.  Any other key becomes a key of [sort]. *)
Definition assign_sort (key : string) (dir : Z) : list (string * Z) :=
  if String.eqb key "__proto__" then [] else [(key, dir)].

(** [sortOption.order === "asc" ? 1 : -1] *)
Definition direction (o : js string) : Z :=
  match o with
  | Val s => if String.eqb s "asc" then 1 else -1
  | _ => -1
  end.

(** * The resolvers *)

Section Resolvers.
Context {Id : Type} `{EqDecision Id} {AddressInput : Type}.

(** [new mongoose.Types.ObjectId(s)]; [None] when the constructor
    throws. *)
Variable ObjectId : string → option Id.
(** [x.productId === product_id] *)
Variable strict_eq : Id → Id → bool.
(** [{ $regex: pattern, $options: "i" }] against a string *)
Variable regex_i : string → string → bool.
(** the order [.sort(sort)] puts the matched documents in *)
Variable sort_docs : SortDoc → list (Product Id) → list (Product Id).

Abbreviation St := (Store Id AddressInput).

Definition new_ObjectId (s : string) : Res Id :=
  match ObjectId s with Some i => Ok i | None => Throw BSONError end.

(** *** Query.products *)

(** Lines 27-104: from [args.filter] to the arguments of the read. *)
Definition products_query (args_filter : js FilterInput) : Res (Query Id) :=
  let limit := 10 in
  let start := 0 in
  match args_filter with
  | Val a =>
      f__id ← match truthy_string (arg__id a) with
              | Some s => i ← new_ObjectId s; Ok (Some i)
              | None => Ok None
              end;
      let f_name := truthy_string (arg_name a) in
      let f_size := truthy_string (arg_size a) in
      let f_color := truthy_string (arg_color a) in
      let f_code := truthy_string (arg_code a) in
      f_categories ← match non_empty (arg_categories a) with
                     | Some l => ids ← map_throw new_ObjectId l; Ok (Some ids)
                     | None => Ok None
                     end;
      let f_keywords := non_empty (arg_keywords a) in
      let f_price :=
        if defined (arg_minPrice a) || defined (arg_maxPrice a) then
          Some {| gte := if defined (arg_minPrice a)
                         then arg_minPrice a else Undefined;
                  lte := if defined (arg_maxPrice a)
                         then arg_maxPrice a else Undefined |}
        else None in
      let sort :=
        match arg_sort a with
        | Val sortOption =>
            assign_sort (field sortOption) (direction (order sortOption))
        | _ => []
        end in
      (if defined (arg_limit a) then Throw ConstAssignment else Ok ());;
      (if defined (arg_start a) then Throw ConstAssignment else Ok ());;
      Ok {| q_filter :=
              Build_Filter f__id f_name f_size f_color f_code
                           f_categories f_keywords f_price;
            q_limit := limit; q_start := start; q_sort := sort |}
  | _ =>
      Ok {| q_filter := empty_filter;
            q_limit := limit; q_start := start; q_sort := [] |}
  end.

(** Whether a product document satisfies the filter object. *)
Definition matches (f : Filter Id) (p : Product Id) : bool :=
  clause (filter__id f) (λ i, bool_decide (product__id p = i))
  && clause (filter_name f) (λ re, regex_i re (product_name p))
  && clause (filter_size f) (λ s, bool_decide (product_size p = s))
  && clause (filter_color f) (λ s, bool_decide (product_color p = s))
  && clause (filter_code f) (λ s, bool_decide (product_code p = s))
  && clause (filter_categories f) (λ set, any_in set (product_categories p))
  && clause (filter_keywords f) (λ set, any_in set (product_keywords p))
  && clause (filter_price f) (λ c, price_ok c (product_price p)).

(** [find(filter).limit(limit).skip(start).sort(sort)]: the store
    sorts the matches, then skips, then limits.  The relations that
    [populate] expands are not part of [Product]. *)
Definition find (q : Query Id) (coll : list (Product Id))
  : list (Product Id) :=
  take (Z.to_nat (q_limit q))
    (drop (Z.to_nat (q_start q))
      (sort_docs (q_sort q) (List.filter (matches (q_filter q)) coll))).

Definition products (args_filter : js FilterInput)
  : M St (list (Product Id)) :=
  q ← lift (products_query args_filter);
  st ← get;
  mret (find q (product st)).

(** *** Authentication *)

Definition checkAuthentication (context : Context Id) : Res () :=
  match user context with
  | None => Throw Unauthenticated
  | Some _ => Ok ()
  end.

(** [contextValue.user._id] *)
Definition user__id (contextValue : Context Id) : Res Id :=
  match user contextValue with
  | Some u => Ok (_id u)
  | None => Throw (TypeError "Cannot read properties of null")
  end.

(** *** Mutation.addAddress *)

Definition addAddress (args_address : AddressInput)
    (contextValue : Context Id) : M St (Address Id AddressInput) :=
  lift (checkAuthentication contextValue);;
  uid ← lift (user__id contextValue);
  let address_doc := Build_Address uid args_address in
  st ← get;
  put (with_address st (address st ++ [address_doc]));;
  mret address_doc.

(** *** Mutation.addProductToCart *)

Definition addProductToCart (args_products : CartInput Id)
    (contextValue : Context Id) : M St (Cart Id) :=
  lift (checkAuthentication contextValue);;
  let product_id := ci_product_id args_products in
  (* [quantity = null] in the destructuring pattern *)
  let qty : num :=
    match ci_quantity args_products with
    | Val z => Some z
    | Null => None
    | Undefined => None
    end in
  uid ← lift (user__id contextValue);
  st ← get;
  match list_find (λ c, cart_user_id c = uid) (cart st) with
  | Some (i, c) =>
      let products' :=
        match list_find (λ x, strict_eq (productId x) product_id = true)
                        (cart_products c) with
        | Some (existingProductIndex, x) =>
            <[existingProductIndex :=
                {| productId := productId x;
                   quantity := js_add (quantity x) qty |}]>
              (cart_products c)
        | None =>
            cart_products c
              ++ [{| productId := product_id; quantity := qty |}]
        end in
      let c' := {| cart_user_id := cart_user_id c;
                   cart_products := products' |} in
      put (with_cart st (<[i := c']> (cart st)));;
      mret c'
  | None =>
      let c := {| cart_user_id := uid;
                  cart_products :=
                    [{| productId := product_id;
                        quantity := or_one qty |}] |} in
      put (with_cart st (cart st ++ [c]));;
      mret c
  end.

(** *** Mutation.removeProductFromCart *)

(** [findOneAndUpdate] without [upsert] and with [new: true]: the
    updated document, or [null] when the user has no cart. *)
Definition removeProductFromCart (args_product_id : Id)
    (contextValue : Context Id) : M St (option (Cart Id)) :=
  lift (checkAuthentication contextValue);;
  uid ← lift (user__id contextValue);
  st ← get;
  match list_find (λ c, cart_user_id c = uid) (cart st) with
  | Some (i, c) =>
      let c' :=
        {| cart_user_id := cart_user_id c;
           cart_products :=
             List.filter
               (λ x, negb (bool_decide (productId x = args_product_id)))
               (cart_products c) |} in
      put (with_cart st (<[i := c']> (cart st)));;
      mret (Some c')
  | None => mret None
  end.

(** *** Mutation.addProductToWishlist *)

Definition addProductToWishlist (args_product_id : Id)
    (contextValue : Context Id) : M St (Wishlist Id) :=
  lift (checkAuthentication contextValue);;
  uid ← lift (user__id contextValue);
  st ← get;
  match list_find (λ w, wishlist_user_id w = uid) (wishlist st) with
  | None =>
      let w := {| wishlist_user_id := uid;
                  wishlist_products := [args_product_id] |} in
      put (with_wishlist st (wishlist st ++ [w]));;
      mret w
  | Some (i, w) =>
      let w' := {| wishlist_user_id := wishlist_user_id w;
                   wishlist_products :=
                     wishlist_products w ++ [args_product_id] |} in
      put (with_wishlist st (<[i := w']> (wishlist st)));;
      mret w'
  end.

(** *** Mutation.removeProductFromWishlist *)

Definition removeProductFromWishlist (args_product_id : Id)
    (contextValue : Context Id) : M St (option (Wishlist Id)) :=
  lift (checkAuthentication contextValue);;
  uid ← lift (user__id contextValue);
  st ← get;
  match list_find (λ w, wishlist_user_id w = uid) (wishlist st) with
  | Some (i, w) =>
      let w' :=
        {| wishlist_user_id := wishlist_user_id w;
           wishlist_products :=
             List.filter (λ x, negb (bool_decide (x = args_product_id)))
                         (wishlist_products w) |} in
      put (with_wishlist st (<[i := w']> (wishlist st)));;
      mret (Some w')
  | None => mret None
  end.

(** *** Mutation.addProductReview *)

(** The query [{ user_id, product_id }] on the review collection. *)
Definition review_of (uid product_id : Id) (r : Review Id) : Prop :=
  review_user_id r = uid ∧ review_product_id r = product_id.

#[global] Instance review_of_dec uid product_id r :
  Decision (review_of uid product_id r).
Proof. unfold review_of. apply _. Defined.

Definition addProductReview (args_review : ReviewInput Id)
    (contextValue : Context Id) : M St (Review Id) :=
  lift (checkAuthentication contextValue);;
  let review := ri_review args_review in
  let score := ri_score args_review in
  let product_id := ri_product_id args_review in
  uid ← lift (user__id contextValue);
  st ← get;
  match list_find (review_of uid product_id) (product_review st) with
  | None =>
      let newReview := {| review_user_id := uid;
                          review_product_id := product_id;
                          review_text := review;
                          review_score := score |} in
      put (with_product_review st (product_review st ++ [newReview]));;
      mret newReview
  | Some (i, r) =>
      let r' := {| review_user_id := review_user_id r;
                   review_product_id := review_product_id r;
                   review_text := review;
                   review_score := score |} in
      put (with_product_review st (<[i := r']> (product_review st)));;
      mret r'
  end.

End Resolvers.

(** * Reading the store *)

Section Views.
Context {Id : Type} `{EqDecision Id} {AddressInput : Type}.
Implicit Types st : Store Id AddressInput.

(** The document [schemas.cart.findOne({ user_id })] returns. *)
Definition cart_of (uid : Id) st : option (Cart Id) :=
  snd <$> list_find (λ c, cart_user_id c = uid) (cart st).

(** The user has no cart document, or one without line items. *)
Definition empty_cart (uid : Id) st : Prop :=
  match cart_of uid st with
  | Some c => cart_products c = []
  | None => True
  end.

(** The document [schemas.wishlist.findOne({ user_id })] returns. *)
Definition wishlist_of (uid : Id) st : option (Wishlist Id) :=
  snd <$> list_find (λ w, wishlist_user_id w = uid) (wishlist st).

(** The product references on the user's wishlist. *)
Definition wished (uid : Id) st : list Id :=
  match wishlist_of uid st with
  | Some w => wishlist_products w
  | None => []
  end.

(** All review documents of the pair [(uid, product_id)]. *)
Definition reviews_of (uid product_id : Id) st : list (Review Id) :=
  filter (review_of uid product_id) (product_review st).
End Views.

(** * Filter requests *)

(** The request with no field supplied. *)
Definition no_fields : FilterInput :=
  {| arg__id := Undefined; arg_categories := Undefined;
     arg_size := Undefined; arg_color := Undefined;
     arg_minPrice := Undefined; arg_maxPrice := Undefined;
     arg_name := Undefined; arg_limit := Undefined;
     arg_start := Undefined; arg_sort := Undefined;
     arg_code := Undefined; arg_keywords := Undefined |}.

Definition with_categories (a : FilterInput) (v : js (list string))
  : FilterInput :=
  {| arg__id := arg__id a; arg_categories := v;
     arg_size := arg_size a; arg_color := arg_color a;
     arg_minPrice := arg_minPrice a; arg_maxPrice := arg_maxPrice a;
     arg_name := arg_name a; arg_limit := arg_limit a;
     arg_start := arg_start a; arg_sort := arg_sort a;
     arg_code := arg_code a; arg_keywords := arg_keywords a |}.

Definition with_keywords (a : FilterInput) (v : js (list string))
  : FilterInput :=
  {| arg__id := arg__id a; arg_categories := arg_categories a;
     arg_size := arg_size a; arg_color := arg_color a;
     arg_minPrice := arg_minPrice a; arg_maxPrice := arg_maxPrice a;
     arg_name := arg_name a; arg_limit := arg_limit a;
     arg_start := arg_start a; arg_sort := arg_sort a;
     arg_code := arg_code a; arg_keywords := v |}.

Definition with_prices (a : FilterInput) (lo hi : js Z) : FilterInput :=
  {| arg__id := arg__id a; arg_categories := arg_categories a;
     arg_size := arg_size a; arg_color := arg_color a;
     arg_minPrice := lo; arg_maxPrice := hi;
     arg_name := arg_name a; arg_limit := arg_limit a;
     arg_start := arg_start a; arg_sort := arg_sort a;
     arg_code := arg_code a; arg_keywords := arg_keywords a |}.

(** The request supplies [limit] or [start]. *)
Definition paginated (a : FilterInput) : bool :=
  defined (arg_limit a) || defined (arg_start a).

(** The constructor accepts the string. *)
Definition valid {Id} (ObjectId : string → option Id) (s : string) : bool :=
  bool_decide (is_Some (ObjectId s)).

(** Every identifier the resolver coerces ([_id], then each element of
    a non-empty [categories]) is one the constructor accepts. *)
Definition coercible {Id} (ObjectId : string → option Id)
    (a : FilterInput) : bool :=
  match truthy_string (arg__id a) with
  | Some s => valid ObjectId s
  | None => true
  end
  && match non_empty (arg_categories a) with
     | Some l => forallb (valid ObjectId) l
     | None => true
     end.

(** The two coercions of [products_query], in the order it runs them. *)
Definition coerce_id {Id} (ObjectId : string → option Id)
    (a : FilterInput) : Res (option Id) :=
  match truthy_string (arg__id a) with
  | Some s => i ← new_ObjectId ObjectId s; Ok (Some i)
  | None => Ok None
  end.

Definition coerce_categories {Id} (ObjectId : string → option Id)
    (a : FilterInput) : Res (option (list Id)) :=
  match non_empty (arg_categories a) with
  | Some l => ids ← map_throw (new_ObjectId ObjectId) l; Ok (Some ids)
  | None => Ok None
  end.

(** * A concrete reading of the parameters

    Identifiers are strings, compared by content; an [ObjectId] is
    written as 24 hexadecimal digits; a pattern without metacharacters
    matches the strings that contain it, whatever the case; documents
    are sorted on [price] or [name]. *)

Definition is_hex_digit (c : Ascii.ascii) : bool :=
  let n := N.to_nat (Ascii.N_of_ascii c) in
  ((48 <=? n) && (n <=? 57) || (65 <=? n) && (n <=? 70)
   || (97 <=? n) && (n <=? 102))%nat.

Definition lower (c : Ascii.ascii) : Ascii.ascii :=
  let n := Ascii.N_of_ascii c in
  if ((65 <=? n) && (n <=? 90))%N then Ascii.ascii_of_N (n + 32) else c.

Fixpoint lowercase (s : string) : string :=
  match s with
  | EmptyString => EmptyString
  | String c s' => String (lower c) (lowercase s')
  end.

Definition hex_ObjectId (s : string) : option string :=
  if (String.length s =? 24)%nat
     && forallb is_hex_digit (String.list_ascii_of_string s)
  then Some (lowercase s) else None.

Fixpoint contains (pat s : string) : bool :=
  String.prefix pat s
  || match s with
     | EmptyString => false
     | String _ s' => contains pat s'
     end.

Definition literal_i (pat s : string) : bool :=
  contains (lowercase pat) (lowercase s).

Definition product_compare (key : string) (p1 p2 : Product string)
  : comparison :=
  if String.eqb key "price" then product_price p1 ?= product_price p2
  else if String.eqb key "name"
       then String.compare (product_name p1) (product_name p2)
       else Eq.

Fixpoint insert_by {A} (before : A → A → bool) (x : A) (l : list A)
  : list A :=
  match l with
  | [] => [x]
  | y :: l' => if before y x then y :: insert_by before x l' else x :: l
  end.

Definition sort_by_key (s : SortDoc) (l : list (Product string))
  : list (Product string) :=
  match s with
  | (key, dir) :: _ =>
      let before p1 p2 :=
        match product_compare key p1 p2 with
        | Eq => true
        | Lt => 0 <? dir
        | Gt => dir <? 0
        end in
      foldr (insert_by before) [] l
  | [] => l
  end.

(** A small catalogue and an empty store around it. *)
Definition sample_product (id name : string) (price : Z)
    (categories : list string) (keywords : list string) : Product string :=
  {| product__id := id; product_name := name; product_code := "";
     product_size := "M"; product_color := "red"; product_price := price;
     product_categories := categories; product_keywords := keywords |}.

Definition shirt : Product string :=
  sample_product "0123456789abcdef01234567" "Shirt" 30
                 ["aaaaaaaaaaaaaaaaaaaaaaaa"] ["cotton"].
Definition coat : Product string :=
  sample_product "0123456789abcdef01234568" "Coat" 80
                 ["bbbbbbbbbbbbbbbbbbbbbbbb"] ["wool"].

Definition catalogue : Store string () :=
  {| address := []; product := [shirt; coat]; cart := [];
     wishlist := []; product_review := [] |}.

Definition alice : Context string :=
  {| user := Some {| _id := "alice"; isInternal := false |} |}.

Definition anonymous {Id} : Context Id := {| user := None |}.

(** Alice's store once she has a cart document without line items, and
    once her cart holds a coat. *)
Definition alice_empty_cart : Store string () :=
  with_cart catalogue [{| cart_user_id := "alice"; cart_products := [] |}].

Definition alice_coat_cart : Store string () :=
  with_cart catalogue
    [{| cart_user_id := "alice";
        cart_products := [{| productId := "coat"; quantity := Some 1 |}] |}].

(** Requests used below. *)
Definition with_id_and_limit (id : string) (limit : Z) : FilterInput :=
  {| arg__id := Val id; arg_categories := Undefined;
     arg_size := Undefined; arg_color := Undefined;
     arg_minPrice := Undefined; arg_maxPrice := Undefined;
     arg_name := Undefined; arg_limit := Val limit;
     arg_start := Undefined; arg_sort := Undefined;
     arg_code := Undefined; arg_keywords := Undefined |}.

Definition cotton_request : FilterInput :=
  with_keywords
    (with_categories no_fields (Val ["aaaaaaaaaaaaaaaaaaaaaaaa"]))
    (Val ["cotton"]).

(** Every pair of a user and a product has at most one review. *)
Definition at_most_one_review {Id} `{EqDecision Id} {Fields}
    (st : Store Id Fields) : Prop :=
  ∀ uid product_id, (length (reviews_of uid product_id st) ≤ 1)%nat.

(** * Identifiers as the store loads them *)

(** [x.productId === product_id] on a cart the store has loaded.  The
    path [products.productId] is a reference to a product document (the
    [cart] query populates it, lines 128-134), so a loaded [productId]
    is an [ObjectId] object, while [product_id] is the string of the
    GraphQL argument: [===] between an object and a string is [false],
    whatever the two denote. *)
Definition reference_strict_eq {Id} (stored supplied : Id) : bool := false.

(** An integer that JavaScript's numbers hold exactly, and below which
    they add without rounding ([Number.MIN_SAFE_INTEGER] to
    [Number.MAX_SAFE_INTEGER]). *)
Definition safe_integer (n : Z) : Prop :=
  - (2 ^ 53 - 1) ≤ n ≤ 2 ^ 53 - 1.

(** * Query.addresses *)

Definition addresses {Id} `{EqDecision Id} {AddressInput : Type}
    (contextValue : Context Id)
  : M (Store Id AddressInput) (list (Address Id AddressInput)) :=
  lift (checkAuthentication contextValue);;
  uid ← lift (user__id contextValue);
  st ← get;
  mret (filter (λ a, address_user_id a = uid) (address st)).

(** * Store invariants *)

(** No two cart documents, and no two wishlist documents, belong to the
    same user. *)
Definition one_document_per_user {Id Fields} (st : Store Id Fields) : Prop :=
  NoDup (cart_user_id <$> cart st)
  ∧ NoDup (wishlist_user_id <$> wishlist st).

(** No cart holds two line items of the same product. *)
Definition one_line_per_product {Id Fields} (st : Store Id Fields) : Prop :=
  ∀ c, c ∈ cart st → NoDup (productId <$> cart_products c).

(** The line items of the user's cart ([[]] without a cart document). *)
Definition line_items {Id} `{EqDecision Id} {Fields}
    (uid : Id) (st : Store Id Fields) : list (LineItem Id) :=
  match cart_of uid st with
  | Some c => cart_products c
  | None => []
  end.

(** * More filter requests *)

(** A string field the resolver's [if (s)] skips: not supplied, [null]
    or the empty string. *)
Definition blank (v : js string) : bool :=
  match v with
  | Val s => String.eqb s ""
  | _ => true
  end.

(** [if (sortOption)] *)
Definition present_sort (a : FilterInput) : bool :=
  match arg_sort a with Val _ => true | _ => false end.

(** The request with one of its string fields replaced. *)
Definition with__id (a : FilterInput) (v : js string) : FilterInput :=
  {| arg__id := v; arg_categories := arg_categories a;
     arg_size := arg_size a; arg_color := arg_color a;
     arg_minPrice := arg_minPrice a; arg_maxPrice := arg_maxPrice a;
     arg_name := arg_name a; arg_limit := arg_limit a;
     arg_start := arg_start a; arg_sort := arg_sort a;
     arg_code := arg_code a; arg_keywords := arg_keywords a |}.

Definition with_name (a : FilterInput) (v : js string) : FilterInput :=
  {| arg__id := arg__id a; arg_categories := arg_categories a;
     arg_size := arg_size a; arg_color := arg_color a;
     arg_minPrice := arg_minPrice a; arg_maxPrice := arg_maxPrice a;
     arg_name := v; arg_limit := arg_limit a;
     arg_start := arg_start a; arg_sort := arg_sort a;
     arg_code := arg_code a; arg_keywords := arg_keywords a |}.

Definition with_size (a : FilterInput) (v : js string) : FilterInput :=
  {| arg__id := arg__id a; arg_categories := arg_categories a;
     arg_size := v; arg_color := arg_color a;
     arg_minPrice := arg_minPrice a; arg_maxPrice := arg_maxPrice a;
     arg_name := arg_name a; arg_limit := arg_limit a;
     arg_start := arg_start a; arg_sort := arg_sort a;
     arg_code := arg_code a; arg_keywords := arg_keywords a |}.

Definition with_color (a : FilterInput) (v : js string) : FilterInput :=
  {| arg__id := arg__id a; arg_categories := arg_categories a;
     arg_size := arg_size a; arg_color := v;
     arg_minPrice := arg_minPrice a; arg_maxPrice := arg_maxPrice a;
     arg_name := arg_name a; arg_limit := arg_limit a;
     arg_start := arg_start a; arg_sort := arg_sort a;
     arg_code := arg_code a; arg_keywords := arg_keywords a |}.

Definition with_code (a : FilterInput) (v : js string) : FilterInput :=
  {| arg__id := arg__id a; arg_categories := arg_categories a;
     arg_size := arg_size a; arg_color := arg_color a;
     arg_minPrice := arg_minPrice a; arg_maxPrice := arg_maxPrice a;
     arg_name := arg_name a; arg_limit := arg_limit a;
     arg_start := arg_start a; arg_sort := arg_sort a;
     arg_code := v; arg_keywords := arg_keywords a |}.

(** Bob, a second signed-in user. *)
Definition bob : Context string :=
  {| user := Some {| _id := "bob"; isInternal := false |} |}.

(** Alice as a user, her cart once it holds a coat, and more requests. *)
Definition alice_user : User string :=
  {| _id := "alice"; isInternal := false |}.

Definition coat_cart : Cart string :=
  {| cart_user_id := "alice";
     cart_products := [{| productId := "coat"; quantity := Some 1 |}] |}.

Definition medium_shirt_request : FilterInput :=
  {| arg__id := Val "0123456789ABCDEF01234567"; arg_categories := Undefined;
     arg_size := Val "M"; arg_color := Val "red";
     arg_minPrice := Undefined; arg_maxPrice := Undefined;
     arg_name := Val "SHIRT"; arg_limit := Undefined;
     arg_start := Undefined;
     arg_sort := Val {| field := "price"; order := Val "ASC" |};
     arg_code := Val ""; arg_keywords := Undefined |}.

Definition blank_request : FilterInput :=
  {| arg__id := Val ""; arg_categories := Undefined;
     arg_size := Null; arg_color := Val "";
     arg_minPrice := Val 10; arg_maxPrice := Undefined;
     arg_name := Val "shirt"; arg_limit := Undefined;
     arg_start := Undefined; arg_sort := Undefined;
     arg_code := Undefined; arg_keywords := Undefined |}.

(** * The token helpers of [src/middleware/jwtHelper.js]

    The [jsonwebtoken] library and the environment are parameters:
    [jwt_sign payload secret expiresIn] is [jwt.sign], [jwt_verify
    token secret] is [jwt.verify], which returns the decoded payload or
    throws, and the two secrets are [process.env.JWT_SECRET] and
    [process.env.JWT_SECRET_VERIFICATION]. *)

(** A token payload: the [user] and [email] keys ([None] is a key the
    payload does not have). *)
Record Claims (Id : Type) :=
  { claim_user : option (User Id); claim_email : option string }.
Arguments claim_user {Id} _.
Arguments claim_email {Id} _.
Arguments Build_Claims {Id} _ _.

(** The space character. *)
Definition space : Ascii.ascii :=
  Ascii.Ascii false false false false false true false false.

(** [s.split(sep)] for a one-character separator. *)
Fixpoint split_on (sep : Ascii.ascii) (s : string) : list string :=
  match s with
  | EmptyString => [EmptyString]
  | String c s' =>
      if Ascii.eqb c sep then EmptyString :: split_on sep s'
      else match split_on sep s' with
           | w :: ws => String c w :: ws
           | [] => [String c EmptyString]
           end
  end.

(** [header.split(" ")[1]]: [None] is [undefined]. *)
Definition second_word (header : string) : option string :=
  split_on space header !! 1%nat.

(** The string holds no space. *)
Fixpoint no_space (s : string) : bool :=
  match s with
  | EmptyString => true
  | String c s' => negb (Ascii.eqb c space) && no_space s'
  end.

(** What a middleware does with a request: answer it, or set
    [req.user] and call [next()]. *)
Inductive Handled (Id : Type) : Type :=
  | Respond (status : Z) (body : string)
  | Next (req_user : option (User Id)).
Arguments Respond {Id} status body.
Arguments Next {Id} req_user.

Section JwtHelper.
Context {Id : Type}.
Variable jwt_sign : Claims Id → string → string → string.
Variable jwt_verify : js string → string → Res (Claims Id).
Variable JWT_SECRET JWT_SECRET_VERIFICATION : string.


Definition createVerificationToken (email : string) : string :=
  jwt_sign {| claim_user := None; claim_email := Some email |}
           JWT_SECRET_VERIFICATION "1d".

(** The decoded payload, or [null] when [jwt.verify] throws. *)
Definition verifyVerificationToken (token : js string)
  : option (Claims Id) :=
  match jwt_verify token JWT_SECRET_VERIFICATION with
  | Ok decoded => Some decoded
  | Throw _ => None
  end.

(** [authorization] is [req.headers.authorization]. *)
Definition verifyToken (authorization : js string) : Handled Id :=
  match truthy_string authorization with
  | None => Respond 401 "Unauthorized request"
  | Some header =>
      match second_word header with
      | None => Respond 401 "Access denied. No token provided."
      | Some token =>
          if String.eqb token ""
          then Respond 401 "Access denied. No token provided."
          else match jwt_verify (Val token) JWT_SECRET with
               | Ok decoded => Next (claim_user decoded)
               | Throw _ => Respond 400 "Invalid token."
               end
      end
  end.

(** The user of the GraphQL context: [null], the decoded [user], or
    the exception of [jwt.verify], which is not caught. *)
Definition verifyGraphqlToken (authorization : js string)
  : Res (option (User Id)) :=
  match truthy_string authorization with
  | None => Ok None
  | Some header =>
      let token := match second_word header with
                   | Some t => Val t
                   | None => Undefined
                   end in
      decoded ← jwt_verify token JWT_SECRET;
      Ok (claim_user decoded)
  end.

(** Reading [decoded.user.isInternal] of a payload without [user]
    throws inside the [try], which answers as for a bad token. *)
Definition verifyAdminToken (authorization : js string) : Handled Id :=
  match truthy_string authorization with
  | None => Respond 401 "Unauthorized request"
  | Some header =>
      match second_word header with
      | None => Respond 401 "Access denied. No token provided."
      | Some token =>
          if String.eqb token ""
          then Respond 401 "Access denied. No token provided."
          else match jwt_verify (Val token) JWT_SECRET with
               | Ok decoded =>
                   match claim_user decoded with
                   | Some u =>
                       if isInternal u then Next (Some u)
                       else Respond 401 "Unauthorized request"
                   | None => Respond 401 "Unauthorised"
                   end
               | Throw _ => Respond 401 "Unauthorised"
               end
      end
  end.
End JwtHelper.

(** A library that knows one token, for Alice, under one secret. *)
Definition alice_token : string := "eyJ1c2VyIjoiYWxpY2UifQ.c2lnbmVk".


Definition one_token_verify (token : js string) (secret : string)
  : Res (Claims string) :=
  match token with
  | Val t =>
      if String.eqb t alice_token && String.eqb secret "s3cret"
      then Ok {| claim_user := Some alice_user; claim_email := None |}
      else Throw (TypeError "invalid token")
  | _ => Throw (TypeError "jwt must be provided")
  end.

(** * The account routes of [src/routes/auth.js]

    The controllers ([auth.*]), the validation schemas and the upload
    middleware are parameters.  A controller runs on its own state [S]
    and returns a message; [req.body] is an object whose fields are
    read with [field] and whose [picture] is set with [set_picture]. *)

(** What a handler can raise: a second answer on the same response, or
    the read of [_id] on a [req.user] that is [undefined]. *)
Inductive route_error : Type :=
  | ERR_HTTP_HEADERS_SENT
  | ReadOfUndefined.

Inductive Ran (A : Type) : Type :=
  | Done (a : A)
  | Raised (e : route_error).
Arguments Done {A} a.
Arguments Raised {A} e.

(** The state a handler runs on: the controllers' state and the answer
    sent so far, a status with its body. *)
Record Wire (Reply S : Type) :=
  { controller : S; sent : option (Z * Reply) }.
Arguments controller {Reply S} _.
Arguments sent {Reply S} _.
Arguments Build_Wire {Reply S} _ _.

Definition Route (Reply S A : Type) : Type :=
  Wire Reply S → Ran A * Wire Reply S.

#[global] Instance Route_ret {Reply S} : MRet (Route Reply S) :=
  λ A a w, (Done a, w).
#[global] Instance Route_bind {Reply S} : MBind (Route Reply S) :=
  λ A B k m w,
    match m w with
    | (Done a, w') => k a w'
    | (Raised e, w') => (Raised e, w')
    end.

(** [res.status(status).json(body)] and [res.status(status).send(body)];
    a response that was already sent raises. *)
Definition respond {Reply S} (status : Z) (body : Reply)
  : Route Reply S () :=
  λ w, match sent w with
       | None => (Done (), {| controller := controller w;
                              sent := Some (status, body) |})
       | Some _ => (Raised ERR_HTTP_HEADERS_SENT, w)
       end.

(** [await auth.f(...)] *)
Definition call {Reply S A} (f : S → A * S) : Route Reply S A :=
  λ w, let (a, s) := f (controller w) in
       (Done a, {| controller := s; sent := sent w |}).

Definition raise {Reply S A} (e : route_error) : Route Reply S A :=
  λ w, (Raised e, w).

(** The bodies the routes answer with. *)
Inductive Reply (Err Msg Doc : Type) : Type :=
  | ErrorOf (e : Err)
  | MessageOf (m : Msg)
  | Created
  | SessionExpired
  | UserOf (d : Doc)
  | Text (s : string).
Arguments ErrorOf {Err Msg Doc} e.
Arguments MessageOf {Err Msg Doc} m.
Arguments Created {Err Msg Doc}.
Arguments SessionExpired {Err Msg Doc}.
Arguments UserOf {Err Msg Doc} d.
Arguments Text {Err Msg Doc} s.

Inductive Schema : Type := securityUserSchema | loginSchema | userSchema.

Section AuthRoutes.
Context {Id Body Json Err Msg Doc S : Type}.
Abbreviation Handler := (Route (Reply Err Msg Doc) S ()).

(** [schemas.x.validate(body).error] *)
Variable validate : Schema → Body → option Err.
(** [body.name] *)
Variable field : string → Body → js Json.
(** [user.picture = filename] *)
Variable set_picture : string → Body → Body.
(** [message.error] is truthy *)
Variable has_error : Msg → bool.
Variable registerUser : Body → S → Msg * S.
Variable loginUser : Body → S → Msg * S.
Variable updateUser : Id → Body → S → Msg * S.
Variable changePassword : js Json → js Json → option (User Id) → S → Msg * S.
Variable getUser : Id → S → Doc * S.
Variable verifyOTP : js Json → js Json → S → Msg * S.
Variable updatePassword : js Json → js Json → S → Msg * S.
Variable jwt_verify : js string → string → Res (Claims Id).
Variable JWT_SECRET : string.

(** A route behind [jwtHelper.verifyToken]: the handler runs with the
    [req.user] the middleware set, when it calls [next()]. *)
Definition behind_verifyToken (authorization : js string)
    (handler : option (User Id) → Handler) : Handler :=
  match verifyToken jwt_verify JWT_SECRET authorization with
  | Respond status body => respond status (Text body)
  | Next req_user => handler req_user
  end.

(** [req.user._id] *)
Definition req_user__id (req_user : option (User Id))
  : Route (Reply Err Msg Doc) S Id :=
  match req_user with
  | Some u => mret (_id u)
  | None => raise ReadOfUndefined
  end.

(** POST /register *)
Definition register (body : Body) : Handler :=
  match validate securityUserSchema body with
  | Some e => respond 200 (ErrorOf e)
  | None =>
      message ← call (registerUser body);
      if has_error message then respond 200 (MessageOf message)
      else respond 201 Created
  end.

(** POST /login *)
Definition login (body : Body) : Handler :=
  match validate loginSchema body with
  | Some e => respond 200 (ErrorOf e)
  | None =>
      message ← call (loginUser body);
      respond 200 (MessageOf message)
  end.

(** POST /user/update; [file] is [req.file.filename] when a file was
    uploaded. *)
Definition user_update (authorization : js string) (file : option string)
    (body : Body) : Handler :=
  behind_verifyToken authorization (λ req_user,
    match validate userSchema body with
    | Some e => respond 200 (ErrorOf e)
    | None =>
        let user := match file with
                    | Some filename => set_picture filename body
                    | None => body
                    end in
        uid ← req_user__id req_user;
        message ← call (updateUser uid user);
        respond 200 (MessageOf message)
    end).

(** POST /user/change-password *)
Definition user_change_password (authorization : js string) (body : Body)
  : Handler :=
  behind_verifyToken authorization (λ req_user,
    message ← call (changePassword (field "oldPassword" body)
                                   (field "newPassword" body) req_user);
    respond 200 (MessageOf message)).

(** GET /user *)
Definition user_get (authorization : js string) : Handler :=
  behind_verifyToken authorization (λ req_user,
    uid ← req_user__id req_user;
    user ← call (getUser uid);
    respond 200 (UserOf user)).

(** POST /user/reset-password: the answer in the [if] is not followed
    by a [return]. *)
Definition user_reset_password (body : Body) : Handler :=
  let email := field "email" body in
  let otp := field "otp" body in
  let password := field "password" body in
  checked ← call (verifyOTP email otp);
  (if has_error checked then respond 200 SessionExpired else mret ());;
  message ← call (updatePassword email password);
  respond 200 (MessageOf message).
End AuthRoutes.

(** A request as it arrives: nothing sent yet. *)
Definition arriving {Reply S} (s : S) : Wire Reply S :=
  {| controller := s; sent := None |}.

(** Controllers that count their calls, for concrete requests: a body
    is a string, invalid when empty; a message is its error flag. *)
Definition counted {A} (a : A) : nat → A * nat := λ n, (a, S n).

Definition nonempty_body (schema : Schema) (body : string) : option string :=
  if String.eqb body "" then Some "empty body" else None.

(** * Lists as collections *)

Section Collections.
Context {A : Type} (P : A → Prop) `{∀ x, Decision (P x)}.

(** Saving a loaded document back leaves it the first match. *)
Lemma list_find_save l i x y :
  list_find P l = Some (i, x) → P y →
  list_find P (<[i:=y]> l) = Some (i, y).
Proof.
  revert i. induction l as [|z l IH]; intros i Hfind Py; simpl in *.
  - discriminate.
  - destruct (decide (P z)) as [Pz|nPz].
    + injection Hfind as <- <-. simpl. by rewrite decide_True.
    + destruct (list_find P l) as [[j w]|] eqn:E; simplify_eq/=.
      rewrite decide_False by done. by rewrite (IH j).
Qed.

(** A new document is found when no older one matches. *)
Lemma list_find_append l y :
  list_find P l = None → P y →
  list_find P (l ++ [y]) = Some (length l, y).
Proof.
  intros Hnone Py. induction l as [|z l IH]; simpl in *.
  - by rewrite decide_True.
  - destruct (decide (P z)); [done|].
    destruct (list_find P l) as [[j w]|] eqn:E; [done|].
    by rewrite IH.
Qed.

Lemma list_find_holds l i x : list_find P l = Some (i, x) → P x.
Proof. intros Hf. by apply list_find_Some in Hf as (_ & ? & _). Qed.

Lemma list_find_lookup l i x : list_find P l = Some (i, x) → l !! i = Some x.
Proof. intros Hf. by apply list_find_Some in Hf as (? & _ & _). Qed.

Lemma filter_none l : list_find P l = None → filter P l = [].
Proof.
  induction l as [|z l IH]; simpl; [done|].
  destruct (decide (P z)); [done|].
  destruct (list_find P l) as [[j w]|]; [done|].
  intros _. rewrite filter_cons_False by done. by apply IH.
Qed.

(** With at most one match in the collection, saving the first match
    back leaves exactly the saved document. *)
Lemma filter_save l i x y :
  list_find P l = Some (i, x) → P y →
  (length (filter P l) ≤ 1)%nat →
  filter P (<[i:=y]> l) = [y].
Proof.
  revert i. induction l as [|z l IH]; intros i Hfind Py Hlen; simpl in *.
  - discriminate.
  - destruct (decide (P z)) as [Pz|nPz].
    + injection Hfind as <- <-. simpl.
      rewrite filter_cons_True in Hlen by done.
      rewrite filter_cons_True by done. f_equal.
      simpl in Hlen. destruct (filter P l); [done|simpl in Hlen; lia].
    + destruct (list_find P l) as [[j w]|] eqn:E; simplify_eq/=.
      rewrite filter_cons_False in Hlen by done.
      rewrite filter_cons_False by done. by apply (IH j).
Qed.
(** Saving a document back does not change how many documents a
    query matches when the saved version matches it as the loaded one
    did. *)
Lemma filter_length_save (Q : A → Prop) `{∀ x, Decision (Q x)} l i x y :
  l !! i = Some x → (Q x ↔ Q y) →
  length (filter Q (<[i:=y]> l)) = length (filter Q l).
Proof.
  revert i. induction l as [|z l IH]; intros [|i] Hi Hxy; simplify_eq/=.
  - rewrite !filter_cons.
    destruct (decide (Q y)), (decide (Q x)); simpl; tauto || done.
  - rewrite !filter_cons. destruct (decide (Q z)); simpl; eauto.
Qed.
End Collections.

(** [List.filter] with a test every element passes. *)
Lemma filter_all_pass {A} (f : A → bool) (l : list A) :
  Forall (λ x, f x = true) l → List.filter f l = l.
Proof.
  induction 1 as [|x l Hx _ IH]; simpl; [done|]. by rewrite Hx, IH.
Qed.

(** * The mutations *)

(** Running a resolver: unfold the monad down to the store it returns. *)
Ltac run_store :=
  unfold mbind, mret, M_bind, M_ret, bind, ret, lift, get, put;
  simpl.

Section MutationProperties.
Context {Id : Type} `{EqDecision Id} {AddressInput : Type}.
Variable strict_eq : Id → Id → bool.
Implicit Types (st : Store Id AddressInput) (u : User Id).

Lemma with_cart_same st : with_cart st (cart st) = st.
Proof. by destruct st. Qed.

(** The cart branch of [addProductToCart] for a signed-in user whose
    cart document exists. *)
Lemma addProductToCart_existing u st i c product_id q :
  list_find (λ c, cart_user_id c = _id u) (cart st) = Some (i, c) →
  addProductToCart strict_eq (Build_CartInput product_id q)
                   {| user := Some u |} st
  = let qty := match q with Val z => Some z | _ => None end in
    let products' :=
      match list_find (λ x, strict_eq (productId x) product_id = true)
                      (cart_products c) with
      | Some (k, x) =>
          <[k := {| productId := productId x;
                    quantity := js_add (quantity x) qty |}]>
            (cart_products c)
      | None =>
          cart_products c ++ [{| productId := product_id; quantity := qty |}]
      end in
    let c' := {| cart_user_id := cart_user_id c;
                 cart_products := products' |} in
    (Ok c', with_cart st (<[i := c']> (cart st))).
Proof.
  intros Hfind. unfold addProductToCart. run_store. rewrite Hfind.
  by destruct q.
Qed.

(** The branch for a signed-in user without a cart document. *)
Lemma addProductToCart_new u st product_id q :
  list_find (λ c, cart_user_id c = _id u) (cart st) = None →
  addProductToCart strict_eq (Build_CartInput product_id q)
                   {| user := Some u |} st
  = let qty := match q with Val z => Some z | _ => None end in
    let c := {| cart_user_id := _id u;
                cart_products :=
                  [{| productId := product_id;
                      quantity := or_one qty |}] |} in
    (Ok c, with_cart st (cart st ++ [c])).
Proof.
  intros Hfind. unfold addProductToCart. run_store. rewrite Hfind.
  by destruct q.
Qed.

(** Where [===] recognises the product: for a signed-in user whose cart
    is empty (no cart document, or one without line items), adding
    product [P] with quantity 2 and then [P] with quantity 3 both
    succeed and leave the user's cart with exactly one line item, for
    [P], of quantity 5. *)
Theorem add_twice_merges u (P : Id) st :
  strict_eq P P = true →
  empty_cart (_id u) st →
  ∃ c1 st1 c2 st2,
    addProductToCart strict_eq (Build_CartInput P (Val 2))
                     {| user := Some u |} st = (Ok c1, st1)
    ∧ addProductToCart strict_eq (Build_CartInput P (Val 3))
                       {| user := Some u |} st1 = (Ok c2, st2)
    ∧ cart_of (_id u) st2 = Some c2
    ∧ cart_products c2 = [{| productId := P; quantity := Some 5 |}].
Proof.
  intros Heq Hempty. unfold empty_cart, cart_of in Hempty.
  destruct (list_find (λ c, cart_user_id c = _id u) (cart st))
    as [[i c]|] eqn:Hfind; simpl in Hempty.
  - pose proof (list_find_holds _ _ _ _ Hfind) as Hc.
    rewrite (addProductToCart_existing _ _ _ _ _ _ Hfind).
    rewrite Hempty. simpl. eexists _, _, _, _. split; [reflexivity|].
    set (c1 := {| cart_user_id := cart_user_id c; cart_products := _ |}).
    assert (Hfind1 : list_find (λ c, cart_user_id c = _id u)
                       (cart (with_cart st (<[i:=c1]> (cart st))))
                     = Some (i, c1))
      by (simpl; by apply list_find_save with c).
    rewrite (addProductToCart_existing _ _ _ _ _ _ Hfind1).
    simpl. rewrite decide_True by done. simpl.
    split; [reflexivity|]. split; [|reflexivity].
    unfold cart_of. simpl.
    rewrite (list_find_save _ _ i c1); [done| |done].
    by apply list_find_save with c.
  - rewrite (addProductToCart_new _ _ _ _ Hfind). simpl.
    eexists _, _, _, _. split; [reflexivity|].
    set (c1 := {| cart_user_id := _id u; cart_products := _ |}).
    assert (Hfind1 : list_find (λ c, cart_user_id c = _id u)
                       (cart (with_cart st (cart st ++ [c1])))
                     = Some (length (cart st), c1))
      by (simpl; by apply list_find_append).
    rewrite (addProductToCart_existing _ _ _ _ _ _ Hfind1).
    simpl. rewrite decide_True by done. simpl.
    split; [reflexivity|]. split; [|reflexivity].
    unfold cart_of. simpl.
    rewrite (list_find_save _ _ (length (cart st)) c1); [done| |done].
    by apply list_find_append.
Qed.

(** C4.  Without an identity in the context, each of the six
    mutations throws the [UNAUTHENTICATED] error and hands the store
    back as it received it: no document is written. *)
Theorem unauthenticated_writes_nothing st
    (a : AddressInput) (ci : CartInput Id) (ri : ReviewInput Id)
    (product_id : Id) :
  addAddress a anonymous st = (Throw Unauthenticated, st)
  ∧ addProductToCart strict_eq ci anonymous st = (Throw Unauthenticated, st)
  ∧ removeProductFromCart product_id anonymous st
    = (Throw Unauthenticated, st)
  ∧ addProductToWishlist product_id anonymous st
    = (Throw Unauthenticated, st)
  ∧ removeProductFromWishlist product_id anonymous st
    = (Throw Unauthenticated, st)
  ∧ addProductReview ri anonymous st = (Throw Unauthenticated, st).
Proof. repeat split. Qed.

(** Pulling a product no line item refers to keeps every line item. *)
Lemma pull_absent (product_id : Id) (items : list (LineItem Id)) :
  product_id ∉ productId <$> items →
  List.filter (λ x, negb (bool_decide (productId x = product_id))) items
  = items.
Proof.
  intros Hnot. apply filter_all_pass, Forall_forall. intros x Hx.
  rewrite bool_decide_eq_false_2; [done|].
  intros Hp. apply Hnot. rewrite <- Hp. by apply list_elem_of_fmap_2.
Qed.

(** C7.  For a signed-in user, removing a product that no line item
    of the user's cart refers to raises no error, leaves the store as
    it was and returns the user's cart as it stands ([null] when the
    user has no cart document). *)
Theorem remove_absent_is_noop u (P : Id) st :
  (∀ c, cart_of (_id u) st = Some c → P ∉ productId <$> cart_products c) →
  removeProductFromCart P {| user := Some u |} st
  = (Ok (cart_of (_id u) st), st).
Proof.
  intros Habsent. unfold removeProductFromCart, cart_of in *. run_store.
  destruct (list_find (λ c, cart_user_id c = _id u) (cart st))
    as [[i c]|] eqn:Hfind; simpl in *; [|done].
  rewrite pull_absent by auto.
  assert (Hc : {| cart_user_id := cart_user_id c;
                  cart_products := cart_products c |} = c)
    by by destruct c.
  rewrite Hc, list_insert_id by eauto using list_find_lookup.
  by rewrite with_cart_same.
Qed.

(** One call of [addProductToWishlist] by a signed-in user: it
    succeeds, and the user's wishlist is the former list with the
    product appended. *)
Lemma addProductToWishlist_appends u (P : Id) st :
  ∃ w st',
    addProductToWishlist P {| user := Some u |} st = (Ok w, st')
    ∧ wishlist_of (_id u) st' = Some w
    ∧ wishlist_products w = wished (_id u) st ++ [P].
Proof.
  unfold addProductToWishlist, wished, wishlist_of. run_store.
  destruct (list_find (λ w, wishlist_user_id w = _id u) (wishlist st))
    as [[i w]|] eqn:Hfind; simpl.
  - eexists _, _. split; [reflexivity|]. simpl. split; [|done].
    rewrite (list_find_save _ _ i w); [done|done|].
    by apply list_find_holds in Hfind.
  - eexists _, _. split; [reflexivity|]. simpl. split; [|done].
    by rewrite list_find_append.
Qed.

(** C10.  For a signed-in user, [addProductToWishlist] appends the
    product to the user's list whatever the list holds, so two calls
    with the same product leave it on the list twice: the list ends
    with two copies of it. *)
Theorem wishlist_add_keeps_duplicates u (P : Id) st :
  ∃ w1 st1 w2 st2,
    addProductToWishlist P {| user := Some u |} st = (Ok w1, st1)
    ∧ wishlist_products w1 = wished (_id u) st ++ [P]
    ∧ addProductToWishlist P {| user := Some u |} st1 = (Ok w2, st2)
    ∧ wishlist_of (_id u) st2 = Some w2
    ∧ wishlist_products w2 = wished (_id u) st ++ [P; P].
Proof.
  destruct (addProductToWishlist_appends u P st)
    as (w1 & st1 & Hrun1 & Hof1 & Hw1).
  destruct (addProductToWishlist_appends u P st1)
    as (w2 & st2 & Hrun2 & Hof2 & Hw2).
  exists w1, st1, w2, st2. repeat split; try done.
  rewrite Hw2. unfold wished. rewrite Hof1, Hw1.
  by rewrite <- app_assoc.
Qed.

(** One call of [addProductReview] by a signed-in user, on a store
    with at most one review of the pair: it succeeds and leaves
    exactly one review of the pair, carrying the supplied text and
    score. *)
Lemma addProductReview_upserts u (P : Id) text score st :
  (length (reviews_of (_id u) P st) ≤ 1)%nat →
  ∃ st',
    let r := {| review_user_id := _id u; review_product_id := P;
                review_text := text; review_score := score |} in
    addProductReview (Build_ReviewInput text score P)
                     {| user := Some u |} st = (Ok r, st')
    ∧ reviews_of (_id u) P st' = [r].
Proof.
  intros Hone. unfold addProductReview, reviews_of in *. run_store.
  destruct (list_find (review_of (_id u) P) (product_review st))
    as [[i r]|] eqn:Hfind; simpl.
  - destruct (list_find_holds _ _ _ _ Hfind) as [-> ->].
    eexists. split; [reflexivity|]. simpl.
    by apply filter_save with r.
  - eexists. split; [reflexivity|]. simpl.
    rewrite filter_app, (filter_none _ _ Hfind). simpl.
    by rewrite filter_cons_True.
Qed.

(** C5.  On a store with at most one review of the pair [(U, P)],
    two calls of [addProductReview] by [U] for [P] both succeed and
    leave exactly one review document of the pair; its text and score
    are those of the second call. *)
Theorem review_twice_keeps_latest u (P : Id) text1 score1 text2 score2 st :
  (length (reviews_of (_id u) P st) ≤ 1)%nat →
  ∃ r1 st1 r2 st2,
    addProductReview (Build_ReviewInput text1 score1 P)
                     {| user := Some u |} st = (Ok r1, st1)
    ∧ addProductReview (Build_ReviewInput text2 score2 P)
                       {| user := Some u |} st1 = (Ok r2, st2)
    ∧ reviews_of (_id u) P st2 = [r2]
    ∧ r2 = {| review_user_id := _id u; review_product_id := P;
              review_text := text2; review_score := score2 |}.
Proof.
  intros Hone.
  destruct (addProductReview_upserts u P text1 score1 st Hone)
    as (st1 & Hrun1 & Hof1).
  destruct (addProductReview_upserts u P text2 score2 st1)
    as (st2 & Hrun2 & Hof2); [by rewrite Hof1|].
  eexists _, st1, _, st2. by repeat split.
Qed.

(** A signed-in user whose cart document holds no line item that
    [===] recognises as [product_id], and who supplies no quantity:
    the line item pushed has the quantity [null]. *)
Lemma push_without_quantity u (product_id : Id) st i c :
  list_find (λ c, cart_user_id c = _id u) (cart st) = Some (i, c) →
  list_find (λ x, strict_eq (productId x) product_id = true)
            (cart_products c) = None →
  ∃ c' st',
    addProductToCart strict_eq (Build_CartInput product_id Undefined)
                     {| user := Some u |} st = (Ok c', st')
    ∧ cart_products c'
      = cart_products c ++ [{| productId := product_id; quantity := None |}].
Proof.
  intros Hfind Hnone.
  rewrite (addProductToCart_existing _ _ _ _ _ _ Hfind). simpl.
  rewrite Hnone. by eexists _, _.
Qed.
(** The review collection keeps at most one review per pair through
    [addProductReview], whoever calls it. *)
Lemma addProductReview_invariant (ri : ReviewInput Id) context st :
  at_most_one_review st →
  at_most_one_review (addProductReview ri context st).2.
Proof.
  intros Hinv. destruct context as [[u|]]; [|done].
  unfold addProductReview. run_store.
  destruct (list_find (review_of (_id u) (ri_product_id ri))
                      (product_review st)) as [[i r]|] eqn:Hfind; simpl.
  - intros uid product_id. unfold reviews_of. simpl.
    rewrite (filter_length_save _ _ i r); [apply Hinv| |done].
    by apply list_find_lookup in Hfind.
  - intros uid product_id. unfold reviews_of. simpl.
    rewrite filter_app, length_app, filter_cons, filter_nil.
    destruct (decide (review_of uid product_id _)) as [[Hu Hp]|_]; simpl.
    + simpl in Hu, Hp. subst uid product_id.
      by rewrite (filter_none _ _ Hfind).
    + rewrite Nat.add_0_r. apply Hinv.
Qed.

(** Where [===] does not recognise a stored [productId] as the one
    supplied, the second call pushes a second line item. *)
Lemma add_twice_unrecognised u (P : Id) st :
  strict_eq P P = false →
  empty_cart (_id u) st →
  ∃ c1 st1 c2 st2,
    addProductToCart strict_eq (Build_CartInput P (Val 2))
                     {| user := Some u |} st = (Ok c1, st1)
    ∧ addProductToCart strict_eq (Build_CartInput P (Val 3))
                       {| user := Some u |} st1 = (Ok c2, st2)
    ∧ cart_products c2 = [{| productId := P; quantity := Some 2 |};
                          {| productId := P; quantity := Some 3 |}].
Proof.
  intros Heq Hempty. unfold empty_cart, cart_of in Hempty.
  destruct (list_find (λ c, cart_user_id c = _id u) (cart st))
    as [[i c]|] eqn:Hfind; simpl in Hempty.
  - pose proof (list_find_holds _ _ _ _ Hfind) as Hc.
    rewrite (addProductToCart_existing _ _ _ _ _ _ Hfind).
    rewrite Hempty. simpl. eexists _, _, _, _. split; [reflexivity|].
    set (c1 := {| cart_user_id := cart_user_id c; cart_products := _ |}).
    assert (Hfind1 : list_find (λ c, cart_user_id c = _id u)
                       (cart (with_cart st (<[i:=c1]> (cart st))))
                     = Some (i, c1))
      by (simpl; by apply list_find_save with c).
    rewrite (addProductToCart_existing _ _ _ _ _ _ Hfind1).
    simpl. rewrite decide_False by (rewrite Heq; done). simpl.
    by split.
  - rewrite (addProductToCart_new _ _ _ _ Hfind). simpl.
    eexists _, _, _, _. split; [reflexivity|].
    set (c1 := {| cart_user_id := _id u; cart_products := _ |}).
    assert (Hfind1 : list_find (λ c, cart_user_id c = _id u)
                       (cart (with_cart st (cart st ++ [c1])))
                     = Some (length (cart st), c1))
      by (simpl; by apply list_find_append).
    rewrite (addProductToCart_existing _ _ _ _ _ _ Hfind1).
    simpl. rewrite decide_False by (rewrite Heq; done). simpl.
    by split.
Qed.
End MutationProperties.

(** * The products query *)

Lemma any_in_spec {A} `{EqDecision A} (set values : list A) :
  any_in set values = true ↔ ∃ x, x ∈ values ∧ x ∈ set.
Proof.
  unfold any_in. rewrite existsb_exists. split.
  - intros (x & Hin & Hset). exists x. split.
    + by apply list_elem_of_In.
    + by apply bool_decide_eq_true in Hset.
  - intros (x & Hin & Hset). exists x. split.
    + by apply list_elem_of_In.
    + by apply bool_decide_eq_true.
Qed.

Lemma price_ok_both lo hi price :
  price_ok {| gte := Val lo; lte := Val hi |} price = true
  ↔ lo ≤ price ≤ hi.
Proof. unfold price_ok. simpl. rewrite andb_true_iff. lia. Qed.

Lemma price_ok_min lo price :
  price_ok {| gte := Val lo; lte := Undefined |} price = true ↔ lo ≤ price.
Proof. unfold price_ok. simpl. rewrite andb_true_iff. lia. Qed.

Lemma price_ok_max hi price :
  price_ok {| gte := Undefined; lte := Val hi |} price = true ↔ price ≤ hi.
Proof. unfold price_ok. simpl. lia. Qed.

Section QueryProperties.
Context {Id : Type} `{EqDecision Id} {AddressInput : Type}.
Variable ObjectId : string → option Id.
Variable regex_i : string → string → bool.
Variable sort_docs : SortDoc → list (Product Id) → list (Product Id).
Implicit Types (st : Store Id AddressInput) (a : FilterInput).

Lemma new_ObjectId_valid s :
  valid ObjectId s = true → ∃ i, new_ObjectId ObjectId s = Ok i.
Proof.
  unfold valid. intros [i Hi]%bool_decide_eq_true. exists i.
  unfold new_ObjectId. by rewrite Hi.
Qed.

Lemma new_ObjectId_invalid s :
  valid ObjectId s = false → new_ObjectId ObjectId s = Throw BSONError.
Proof.
  unfold valid. intros Hs%bool_decide_eq_false. unfold new_ObjectId.
  destruct (ObjectId s); [|done]. destruct Hs. eauto.
Qed.

Lemma map_throw_valid l :
  forallb (valid ObjectId) l = true →
  ∃ ids, map_throw (new_ObjectId ObjectId) l = Ok ids.
Proof.
  induction l as [|s l IH]; simpl; [by eexists|].
  intros [Hs Hl]%andb_true_iff.
  destruct (new_ObjectId_valid s Hs) as [i ->].
  destruct (IH Hl) as [ids ->]. by eexists.
Qed.

Lemma map_throw_invalid l :
  forallb (valid ObjectId) l = false →
  map_throw (new_ObjectId ObjectId) l = Throw BSONError.
Proof.
  induction l as [|s l IH]; simpl; [done|].
  intros [Hs|Hl]%andb_false_iff.
  - by rewrite (new_ObjectId_invalid s Hs).
  - rewrite (IH Hl). unfold new_ObjectId. by destruct (ObjectId s).
Qed.

(** The exception is all a resolver leaves of a failed compilation. *)
Lemma products_run args_filter st :
  products ObjectId regex_i sort_docs args_filter st
  = match products_query ObjectId args_filter with
    | Ok q => (Ok (find regex_i sort_docs q (product st)), st)
    | Throw e => (Throw e, st)
    end.
Proof.
  unfold products. run_store.
  by destruct (products_query ObjectId args_filter).
Qed.

Lemma coercible_true a :
  coercible ObjectId a = true →
  ∃ i ids,
    coerce_id ObjectId a = Ok i ∧ coerce_categories ObjectId a = Ok ids.
Proof.
  unfold coercible, coerce_id, coerce_categories.
  intros [Hid Hcat]%andb_true_iff.
  destruct (truthy_string (arg__id a)) as [s|].
  - destruct (new_ObjectId_valid s Hid) as [i ->].
    destruct (non_empty (arg_categories a)) as [l|]; [|by eexists _, _].
    destruct (map_throw_valid l Hcat) as [ids ->]. by eexists _, _.
  - destruct (non_empty (arg_categories a)) as [l|]; [|by eexists _, _].
    destruct (map_throw_valid l Hcat) as [ids ->]. by eexists _, _.
Qed.

Lemma coercible_false a :
  coercible ObjectId a = false →
  coerce_id ObjectId a = Throw BSONError
  ∨ ∃ i, coerce_id ObjectId a = Ok i
         ∧ coerce_categories ObjectId a = Throw BSONError.
Proof.
  unfold coercible, coerce_id, coerce_categories.
  intros Hf. destruct (truthy_string (arg__id a)) as [s|].
  - destruct (valid ObjectId s) eqn:Hs.
    + destruct (new_ObjectId_valid s Hs) as [i ->]. right. exists (Some i).
      split; [done|]. simpl in Hf.
      destruct (non_empty (arg_categories a)) as [l|]; [|done].
      by rewrite (map_throw_invalid l Hf).
    + left. by rewrite (new_ObjectId_invalid s Hs).
  - right. exists None. split; [done|]. simpl in Hf.
    destruct (non_empty (arg_categories a)) as [l|]; [|done].
    by rewrite (map_throw_invalid l Hf).
Qed.

(** [products_query] on a filter object, laid out by outcome. *)
Lemma products_query_unfold a :
  products_query ObjectId (Val a)
  = f__id ← coerce_id ObjectId a;
    f_categories ← coerce_categories ObjectId a;
    if defined (arg_limit a) then Throw ConstAssignment
    else if defined (arg_start a) then Throw ConstAssignment
    else Ok {| q_filter :=
                 Build_Filter f__id
                   (truthy_string (arg_name a)) (truthy_string (arg_size a))
                   (truthy_string (arg_color a)) (truthy_string (arg_code a))
                   f_categories (non_empty (arg_keywords a))
                   (if defined (arg_minPrice a) || defined (arg_maxPrice a)
                    then Some {| gte := arg_minPrice a; lte := arg_maxPrice a |}
                    else None);
               q_limit := 10; q_start := 0;
               q_sort := match arg_sort a with
                         | Val so => assign_sort (field so) (direction (order so))
                         | _ => []
                         end |}.
Proof.
  unfold products_query, coerce_id, coerce_categories.
  destruct (truthy_string (arg__id a)) as [s|]; simpl.
  - destruct (new_ObjectId ObjectId s); simpl; [|done].
    destruct (non_empty (arg_categories a)) as [l|]; simpl.
    + destruct (map_throw (new_ObjectId ObjectId) l); simpl; [|done].
      destruct (arg_limit a), (arg_start a), (arg_minPrice a),
        (arg_maxPrice a); reflexivity.
    + destruct (arg_limit a), (arg_start a), (arg_minPrice a),
        (arg_maxPrice a); reflexivity.
  - destruct (non_empty (arg_categories a)) as [l|]; simpl.
    + destruct (map_throw (new_ObjectId ObjectId) l); simpl; [|done].
      destruct (arg_limit a), (arg_start a), (arg_minPrice a),
        (arg_maxPrice a); reflexivity.
    + destruct (arg_limit a), (arg_start a), (arg_minPrice a),
        (arg_maxPrice a); reflexivity.
Qed.

(** A request that supplies [limit] or [start] never compiles. *)
Lemma products_query_paginated a :
  paginated a = true →
  products_query ObjectId (Val a)
  = Throw (if coercible ObjectId a then ConstAssignment else BSONError).
Proof.
  intros Hp. rewrite products_query_unfold.
  destruct (coercible ObjectId a) eqn:Hc.
  - destruct (coercible_true a Hc) as (i & ids & -> & ->). simpl.
    unfold paginated in Hp.
    destruct (defined (arg_limit a)); [done|].
    by destruct (defined (arg_start a)).
  - destruct (coercible_false a Hc) as [->|(i & -> & ->)]; done.
Qed.

(** A request that supplies neither compiles when the coercions
    succeed. *)
Lemma products_query_returns a :
  paginated a = false → coercible ObjectId a = true →
  ∃ q, products_query ObjectId (Val a) = Ok q.
Proof.
  intros Hp Hc. rewrite products_query_unfold.
  destruct (coercible_true a Hc) as (i & ids & -> & ->). simpl.
  apply orb_false_iff in Hp as [-> ->]. by eexists.
Qed.

Lemma products_query_not_coercible a :
  coercible ObjectId a = false →
  products_query ObjectId (Val a) = Throw BSONError.
Proof.
  intros Hc. rewrite products_query_unfold.
  destruct (coercible_false a Hc) as [->|(i & -> & ->)]; done.
Qed.

(** What a compiled query is made of. *)
Lemma products_query_inv a q :
  products_query ObjectId (Val a) = Ok q →
  paginated a = false
  ∧ coerce_categories ObjectId a = Ok (filter_categories (q_filter q))
  ∧ filter_keywords (q_filter q) = non_empty (arg_keywords a)
  ∧ filter_price (q_filter q)
    = (if defined (arg_minPrice a) || defined (arg_maxPrice a)
       then Some {| gte := arg_minPrice a; lte := arg_maxPrice a |}
       else None)
  ∧ q_limit q = 10 ∧ q_start q = 0.
Proof.
  rewrite products_query_unfold. unfold paginated.
  destruct (coerce_id ObjectId a); simpl; [|done].
  destruct (coerce_categories ObjectId a); simpl; [|done].
  destruct (defined (arg_limit a)); [done|].
  destruct (defined (arg_start a)); [done|].
  intros [= <-]. by repeat split.
Qed.

(** A product that satisfies the filter satisfies each of its
    clauses. *)
Lemma matches_categories (f : Filter Id) (p : Product Id) ids :
  matches regex_i f p = true → filter_categories f = Some ids →
  ∃ x, x ∈ product_categories p ∧ x ∈ ids.
Proof.
  unfold matches. rewrite !andb_true_iff. intros Hm Hf.
  rewrite Hf in Hm. simpl in Hm. apply any_in_spec. tauto.
Qed.

Lemma matches_keywords (f : Filter Id) (p : Product Id) set :
  matches regex_i f p = true → filter_keywords f = Some set →
  ∃ x, x ∈ product_keywords p ∧ x ∈ set.
Proof.
  unfold matches. rewrite !andb_true_iff. intros Hm Hf.
  rewrite Hf in Hm. simpl in Hm. apply any_in_spec. tauto.
Qed.

Lemma matches_price (f : Filter Id) (p : Product Id) c :
  matches regex_i f p = true → filter_price f = Some c →
  price_ok c (product_price p) = true.
Proof.
  unfold matches. rewrite !andb_true_iff. intros Hm Hf.
  rewrite Hf in Hm. simpl in Hm. tauto.
Qed.

(** C2 (as amended).  A request that supplies [limit] or [start]
    throws instead of reading with the supplied pagination, and the
    store is untouched: the exception is the assignment to the
    [const] binding when the identifier coercions that run before it
    succeed, and the coercion's own exception otherwise.  A request
    whose read completes supplied neither [limit] nor [start]. *)
Theorem pagination_throws a st :
  (paginated a = true →
     products ObjectId regex_i sort_docs (Val a) st
     = (Throw (if coercible ObjectId a
               then ConstAssignment else BSONError), st))
  ∧ (∀ r st', products ObjectId regex_i sort_docs (Val a) st = (Ok r, st') →
       arg_limit a = Undefined ∧ arg_start a = Undefined).
Proof.
  split.
  - intros Hp. by rewrite products_run, products_query_paginated.
  - intros r st'. rewrite products_run.
    destruct (products_query ObjectId (Val a)) as [q|e] eqn:Hq; [|done].
    intros _. apply products_query_inv in Hq as (Hp & _).
    apply orb_false_iff in Hp as [Hl Hs].
    by destruct (arg_limit a), (arg_start a).
Qed.

(** C6.  Whenever a request compiles, a non-empty [categories] array
    has become the [$in] clause over its coerced elements and a
    non-empty [keywords] array the [$in] clause over its elements, so
    a product that satisfies the filter has one of its own values in
    the set; an empty array leaves the key unassigned, and the whole
    outcome of compiling the request is that of the request without
    the field. *)
Theorem membership_clauses :
  (∀ a q, products_query ObjectId (Val a) = Ok q →
     (∀ l, arg_categories a = Val l → l ≠ [] →
        ∃ ids, map_throw (new_ObjectId ObjectId) l = Ok ids
               ∧ filter_categories (q_filter q) = Some ids
               ∧ ∀ p, matches regex_i (q_filter q) p = true →
                      ∃ x, x ∈ product_categories p ∧ x ∈ ids)
     ∧ (∀ l, arg_keywords a = Val l → l ≠ [] →
        filter_keywords (q_filter q) = Some l
        ∧ ∀ p, matches regex_i (q_filter q) p = true →
               ∃ x, x ∈ product_keywords p ∧ x ∈ l)
     ∧ (arg_categories a = Val [] → filter_categories (q_filter q) = None)
     ∧ (arg_keywords a = Val [] → filter_keywords (q_filter q) = None))
  ∧ (∀ a, products_query ObjectId (Val (with_categories a (Val [])))
          = products_query ObjectId (Val (with_categories a Undefined)))
  ∧ (∀ a, products_query ObjectId (Val (with_keywords a (Val [])))
          = products_query ObjectId (Val (with_keywords a Undefined))).
Proof.
  split; [|split; intros a; by rewrite !products_query_unfold].
  intros a q Hq.
  apply products_query_inv in Hq as (_ & Hcat & Hkw & _).
  unfold coerce_categories in Hcat. split; [|split; [|split]].
  - intros l Hl Hne. rewrite Hl in Hcat.
    assert (Hn : non_empty (Val l) = Some l) by by destruct l.
    rewrite Hn in Hcat.
    destruct (map_throw (new_ObjectId ObjectId) l) as [ids|]; [|done].
    injection Hcat as Hcat. exists ids. split; [done|]. split; [done|].
    intros p Hp. by apply matches_categories with (q_filter q).
  - intros l Hl Hne.
    assert (Hset : filter_keywords (q_filter q) = Some l)
      by (rewrite Hkw, Hl; by destruct l).
    split; [done|].
    intros p Hp. by apply matches_keywords with (q_filter q).
  - intros Hl. rewrite Hl in Hcat. by injection Hcat.
  - intros Hl. by rewrite Hkw, Hl.
Qed.

(** C8.  Without a filter, and for every filter object that supplies
    neither [limit] nor [start], the read that is issued takes 10
    documents after skipping 0; such a request does compile when its
    identifiers are well formed. *)
Theorem default_pagination :
  (∀ st,
     products ObjectId regex_i sort_docs Undefined st
     = (Ok (take 10 (drop 0 (sort_docs []
              (List.filter (matches regex_i empty_filter) (product st))))),
        st)
     ∧ products ObjectId regex_i sort_docs Null st
       = products ObjectId regex_i sort_docs Undefined st)
  ∧ (∀ a, arg_limit a = Undefined → arg_start a = Undefined →
       (coercible ObjectId a = true →
          ∃ q, products_query ObjectId (Val a) = Ok q)
       ∧ ∀ q, products_query ObjectId (Val a) = Ok q →
           q_limit q = 10 ∧ q_start q = 0
           ∧ ∀ st,
               products ObjectId regex_i sort_docs (Val a) st
               = (Ok (take 10 (drop 0 (sort_docs (q_sort q)
                        (List.filter (matches regex_i (q_filter q))
                                     (product st))))), st)).
Proof.
  split; [done|]. intros a Hl Hs. split.
  - apply products_query_returns. unfold paginated. by rewrite Hl, Hs.
  - intros q Hq. pose proof (products_query_inv _ _ Hq) as (_&_&_&_&Hlim&Hst).
    repeat split; [done..|]. intros st.
    rewrite products_run, Hq. unfold find. by rewrite Hlim, Hst.
Qed.

(** C9.  Whenever a request compiles, [minPrice] and [maxPrice] have
    become the bounds [$gte] and [$lte] of the price clause, both
    inclusive, and either may come alone: a product that satisfies the
    filter has its price within the bounds supplied.  When [minPrice]
    is the only field supplied, the request compiles and the products
    that satisfy it are exactly those priced at [minPrice] or more. *)
Theorem price_bounds :
  (∀ a q, products_query ObjectId (Val a) = Ok q →
     (∀ lo hi, arg_minPrice a = Val lo → arg_maxPrice a = Val hi →
        filter_price (q_filter q) = Some {| gte := Val lo; lte := Val hi |}
        ∧ (∀ price, price_ok {| gte := Val lo; lte := Val hi |} price = true
                    ↔ lo ≤ price ≤ hi)
        ∧ ∀ p, matches regex_i (q_filter q) p = true →
               lo ≤ product_price p ≤ hi)
     ∧ (∀ lo, arg_minPrice a = Val lo → arg_maxPrice a = Undefined →
        filter_price (q_filter q)
        = Some {| gte := Val lo; lte := Undefined |}
        ∧ ∀ p, matches regex_i (q_filter q) p = true → lo ≤ product_price p)
     ∧ (∀ hi, arg_minPrice a = Undefined → arg_maxPrice a = Val hi →
        filter_price (q_filter q)
        = Some {| gte := Undefined; lte := Val hi |}
        ∧ ∀ p, matches regex_i (q_filter q) p = true → product_price p ≤ hi))
  ∧ (∀ lo, ∃ q,
       products_query ObjectId
         (Val (with_prices no_fields (Val lo) Undefined)) = Ok q
       ∧ ∀ p, matches regex_i (q_filter q) p = true ↔ lo ≤ product_price p).
Proof.
  split.
  - intros a q Hq.
    apply products_query_inv in Hq as (_ & _ & _ & Hprice & _).
    split; [|split].
    + intros lo hi Hlo Hhi. rewrite Hlo, Hhi in Hprice. simpl in Hprice.
      split; [done|]. split; [apply price_ok_both|].
      intros p Hp. apply price_ok_both.
      by apply matches_price with (q_filter q).
    + intros lo Hlo Hhi. rewrite Hlo, Hhi in Hprice. simpl in Hprice.
      split; [done|].
      intros p Hp. apply price_ok_min.
      by apply matches_price with (q_filter q).
    + intros hi Hlo Hhi. rewrite Hlo, Hhi in Hprice. simpl in Hprice.
      split; [done|].
      intros p Hp. apply price_ok_max.
      by apply matches_price with (q_filter q).
  - intros lo. eexists. split; [reflexivity|].
    intros p. unfold matches. simpl. apply price_ok_min.
Qed.
End QueryProperties.

(** * Concrete requests *)

Lemma add_twice_merges_witness :
  String.eqb "shirt" "shirt" = true
  ∧ empty_cart "alice" catalogue
  ∧ ∃ c1 st1 c2 st2,
      addProductToCart String.eqb (Build_CartInput "shirt" (Val 2))
                       alice catalogue = (Ok c1, st1)
      ∧ addProductToCart String.eqb (Build_CartInput "shirt" (Val 3))
                         alice st1 = (Ok c2, st2)
      ∧ cart_of "alice" st2 = Some c2
      ∧ cart_products c2 = [{| productId := "shirt"; quantity := Some 5 |}].
Proof.
  split; [reflexivity|]. split; [exact I|].
  apply (add_twice_merges String.eqb
           {| _id := "alice"; isInternal := false |} "shirt" catalogue);
    [reflexivity | exact I].
Defined.

(** C1 on the code: Alice has no cart and adds the shirt with quantity 2,
    then again with quantity 3.  The second call loads the cart the
    first one saved; no loaded [productId] is [===] the string
    supplied, so [findIndex] is -1 and a second line item is pushed:
    the cart ends with two line items for the shirt, of quantities 2
    and 3, where one line item of quantity 5 was to result. *)
Theorem add_twice_pushes_second_line_item :
  ∃ c1 st1 c2 st2,
    addProductToCart reference_strict_eq (Build_CartInput "shirt" (Val 2))
                     alice catalogue = (Ok c1, st1)
    ∧ addProductToCart reference_strict_eq (Build_CartInput "shirt" (Val 3))
                       alice st1 = (Ok c2, st2)
    ∧ cart_of "alice" st2 = Some c2
    ∧ cart_products c2 = [{| productId := "shirt"; quantity := Some 2 |};
                          {| productId := "shirt"; quantity := Some 3 |}]
    ∧ cart_products c2 ≠ [{| productId := "shirt"; quantity := Some 5 |}].
Proof.
  set (one := {| cart_user_id := "alice";
                 cart_products :=
                   [{| productId := "shirt"; quantity := Some 2 |}] |}).
  set (two := {| cart_user_id := "alice";
                 cart_products :=
                   [{| productId := "shirt"; quantity := Some 2 |};
                    {| productId := "shirt"; quantity := Some 3 |}] |}).
  exists one, (with_cart catalogue [one]), two, (with_cart catalogue [two]).
  split; [reflexivity|]. split; [reflexivity|].
  split; [reflexivity|]. split; [reflexivity|]. discriminate.
Qed.

(** C3 on the code: Alice has a cart document without line items and
    adds a product without a quantity; the line item that is pushed has
    the quantity [null], where a new cart document would have given it
    the quantity 1. *)
Theorem existing_cart_quantity_not_defaulted :
  addProductToCart String.eqb (Build_CartInput "shirt" Undefined)
                   alice alice_empty_cart
  = (Ok {| cart_user_id := "alice";
           cart_products := [{| productId := "shirt"; quantity := None |}] |},
     with_cart catalogue
       [{| cart_user_id := "alice";
           cart_products :=
             [{| productId := "shirt"; quantity := None |}] |}])
  ∧ addProductToCart String.eqb (Build_CartInput "shirt" Undefined)
                     alice catalogue
    = (Ok {| cart_user_id := "alice";
             cart_products :=
               [{| productId := "shirt"; quantity := Some 1 |}] |},
       with_cart catalogue
         [{| cart_user_id := "alice";
             cart_products :=
               [{| productId := "shirt"; quantity := Some 1 |}] |}]).
Proof. split; reflexivity. Qed.

Lemma remove_absent_is_noop_witness :
  (∀ c, cart_of "alice" alice_coat_cart = Some c →
        "shirt" ∉ productId <$> cart_products c)
  ∧ removeProductFromCart "shirt" alice alice_coat_cart
    = (Ok (cart_of "alice" alice_coat_cart), alice_coat_cart).
Proof.
  assert (Habsent : ∀ c, cart_of "alice" alice_coat_cart = Some c →
                         "shirt" ∉ productId <$> cart_products c).
  { intros c [= <-]. simpl. intros Hin.
    apply list_elem_of_singleton in Hin. discriminate. }
  split; [exact Habsent|].
  exact (remove_absent_is_noop
           {| _id := "alice"; isInternal := false |} "shirt"
           alice_coat_cart Habsent).
Defined.

Lemma review_twice_keeps_latest_witness :
  (length (reviews_of "alice" "shirt" catalogue) ≤ 1)%nat
  ∧ ∃ r1 st1 r2 st2,
      addProductReview (Build_ReviewInput "fine" 3 "shirt") alice catalogue
      = (Ok r1, st1)
      ∧ addProductReview (Build_ReviewInput "great" 5 "shirt") alice st1
        = (Ok r2, st2)
      ∧ reviews_of "alice" "shirt" st2 = [r2]
      ∧ r2 = {| review_user_id := "alice"; review_product_id := "shirt";
                review_text := "great"; review_score := 5 |}.
Proof.
  assert (Hone : (length (reviews_of "alice" "shirt" catalogue) ≤ 1)%nat)
    by (simpl; lia).
  split; [exact Hone|].
  exact (review_twice_keeps_latest
           {| _id := "alice"; isInternal := false |} "shirt"
           "fine" 3 "great" 5 catalogue Hone).
Defined.

(** C2 as stated fails: the request supplies [limit], yet the exception
    is the one of the [_id] coercion, which runs first, and not the
    assignment to the [const] binding. *)
Lemma malformed_id_throws_first :
  paginated (with_id_and_limit "bad" 5) = true
  ∧ products hex_ObjectId literal_i sort_by_key
             (Val (with_id_and_limit "bad" 5)) catalogue
    = (Throw BSONError, catalogue)
  ∧ products hex_ObjectId literal_i sort_by_key
             (Val (with_id_and_limit "bad" 5)) catalogue
    ≠ (Throw ConstAssignment, catalogue).
Proof. split; [reflexivity|]. split; [reflexivity|]. discriminate. Qed.

Lemma pagination_throws_witness :
  paginated (with_id_and_limit "0123456789abcdef01234567" 5) = true
  ∧ products hex_ObjectId literal_i sort_by_key
             (Val (with_id_and_limit "0123456789abcdef01234567" 5)) catalogue
    = (Throw ConstAssignment, catalogue).
Proof.
  split; [reflexivity|].
  exact (proj1 (pagination_throws hex_ObjectId literal_i sort_by_key
                  (with_id_and_limit "0123456789abcdef01234567" 5) catalogue)
               eq_refl).
Defined.

Lemma membership_clauses_witness :
  ∃ q, products_query hex_ObjectId (Val cotton_request) = Ok q
       ∧ filter_categories (q_filter q) = Some ["aaaaaaaaaaaaaaaaaaaaaaaa"]
       ∧ filter_keywords (q_filter q) = Some ["cotton"]
       ∧ matches literal_i (q_filter q) shirt = true
       ∧ matches literal_i (q_filter q) coat = false.
Proof.
  eexists. split; [reflexivity|].
  destruct (proj1 (membership_clauses hex_ObjectId literal_i)
              cotton_request _ eq_refl) as (Hcat & Hkw & _).
  destruct (Hcat ["aaaaaaaaaaaaaaaaaaaaaaaa"] eq_refl ltac:(discriminate))
    as (ids & Hids & Hfilter & _).
  destruct (Hkw ["cotton"] eq_refl ltac:(discriminate)) as (Hset & _).
  injection Hids as <-.
  split; [exact Hfilter|]. split; [exact Hset|]. split; reflexivity.
Defined.

Lemma default_pagination_witness :
  arg_limit no_fields = Undefined ∧ arg_start no_fields = Undefined
  ∧ ∃ q, products_query hex_ObjectId (Val no_fields) = Ok q
         ∧ q_limit q = 10 ∧ q_start q = 0.
Proof.
  split; [reflexivity|]. split; [reflexivity|].
  destruct (proj2 (default_pagination hex_ObjectId literal_i sort_by_key
                     (AddressInput := ()))
              no_fields eq_refl eq_refl) as (Hret & Hdef).
  destruct (Hret eq_refl) as (q & Hq). exists q. split; [exact Hq|].
  destruct (Hdef q Hq) as (Hlimit & Hstart & _). by split.
Defined.

Lemma price_bounds_witness :
  ∃ q, products_query hex_ObjectId
         (Val (with_prices no_fields (Val 10) (Val 50))) = Ok q
       ∧ (∀ p, matches literal_i (q_filter q) p = true →
               10 ≤ product_price p ≤ 50)
       ∧ matches literal_i (q_filter q) shirt = true
       ∧ matches literal_i (q_filter q) coat = false.
Proof.
  eexists. split; [reflexivity|].
  destruct (proj1 (price_bounds hex_ObjectId literal_i)
              (with_prices no_fields (Val 10) (Val 50)) _ eq_refl)
    as (Hboth & _).
  destruct (Hboth 10 50 eq_refl eq_refl) as (_ & _ & Hin).
  split; [exact Hin|]. split; reflexivity.
Defined.

(** * Documents keyed by their owner *)

Section Keyed.
Context {A K : Type} `{EqDecision K} (key : A → K).

(** Saving a document back under the same key leaves the keys of the
    collection as they were. *)
Lemma keys_save (l : list A) i x y :
  l !! i = Some x → key y = key x → key <$> <[i:=y]> l = key <$> l.
Proof.
  intros Hi Hkey. rewrite list_fmap_insert, Hkey.
  apply list_insert_id. by rewrite list_lookup_fmap, Hi.
Qed.

Lemma keys_append_fresh (l : list A) k y :
  list_find (λ x, key x = k) l = None → key y = k →
  NoDup (key <$> l) → NoDup (key <$> (l ++ [y])).
Proof.
  intros Hnone Hkey Hnodup. rewrite fmap_app. simpl.
  apply NoDup_app. split; [done|]. split; [|apply NoDup_singleton].
  intros k' Hin ->%list_elem_of_singleton.
  apply list_elem_of_fmap in Hin as (x & Hx & Hin).
  apply list_find_None in Hnone.
  rewrite Forall_forall in Hnone. apply (Hnone x Hin). congruence.
Qed.

(** Another owner's document is found as before. *)
Lemma list_find_other_save (k : K) (l : list A) i x y :
  l !! i = Some x → key x ≠ k → key y ≠ k →
  list_find (λ d, key d = k) (<[i:=y]> l) = list_find (λ d, key d = k) l.
Proof.
  revert i. induction l as [|z l IH]; intros [|i] Hi Hx Hy; simplify_eq/=.
  - by rewrite !decide_False.
  - destruct (decide (key z = k)); [done|]. by rewrite (IH i).
Qed.

Lemma list_find_other_append (k : K) (l : list A) y :
  key y ≠ k →
  list_find (λ d, key d = k) (l ++ [y]) = list_find (λ d, key d = k) l.
Proof.
  intros Hy. induction l as [|z l IH]; simpl.
  - by rewrite decide_False.
  - destruct (decide (key z = k)); [done|]. by rewrite IH.
Qed.
End Keyed.

(** [List.filter]: membership, and filtering twice. *)
Lemma List_filter_elem {A} (f : A → bool) (l : list A) x :
  x ∈ List.filter f l ↔ x ∈ l ∧ f x = true.
Proof. rewrite !list_elem_of_In. apply filter_In. Qed.

Lemma List_filter_twice {A} (f : A → bool) (l : list A) :
  List.filter f (List.filter f l) = List.filter f l.
Proof.
  apply filter_all_pass, Forall_forall. intros x Hx.
  by apply List_filter_elem in Hx as [_ ?].
Qed.

Lemma List_filter_keys_NoDup {A K} (key : A → K) (f : A → bool) (l : list A) :
  NoDup (key <$> l) → NoDup (key <$> List.filter f l).
Proof.
  induction l as [|x l IH]; simpl; [done|].
  intros [Hx Hl]%NoDup_cons. destruct (f x); simpl; [|by apply IH].
  apply NoDup_cons. split; [|by apply IH].
  intros Hin. apply Hx.
  apply list_elem_of_fmap in Hin as (y & -> & Hy).
  apply List_filter_elem in Hy as [Hy _]. by apply list_elem_of_fmap_2.
Qed.

Lemma elem_of_save {A} (l : list A) i y z :
  z ∈ <[i:=y]> l → z = y ∨ z ∈ l.
Proof.
  revert i. induction l as [|x l IH]; intros [|i]; simpl.
  - by right.
  - by right.
  - intros [->|Hz]%elem_of_cons; [by left|].
    right. by apply elem_of_cons; right.
  - intros [->|Hz]%elem_of_cons.
    + right. by apply elem_of_cons; left.
    + destruct (IH i Hz) as [->|?]; [by left|].
      right. by apply elem_of_cons; right.
Qed.

(** * The cart, further *)

Section CartProperties.
Context {Id : Type} `{EqDecision Id} {AddressInput : Type}.
Variable strict_eq : Id → Id → bool.
Implicit Types (st : Store Id AddressInput) (u : User Id).

Lemma cart_of_find uid st c :
  cart_of uid st = Some c →
  ∃ i, list_find (λ c, cart_user_id c = uid) (cart st) = Some (i, c).
Proof.
  unfold cart_of.
  destruct (list_find (λ c, cart_user_id c = uid) (cart st)) as [[i c']|];
    [|done].
  intros [= <-]. by exists i.
Qed.

Lemma line_item_eta (x : LineItem Id) :
  {| productId := productId x; quantity := quantity x |} = x.
Proof. by destruct x. Qed.

Lemma cart_eta (c : Cart Id) :
  {| cart_user_id := cart_user_id c; cart_products := cart_products c |} = c.
Proof. by destruct c. Qed.

(** [removeProductFromCart] for a signed-in user, by what [findOne]
    would return. *)
Lemma removeProductFromCart_run u (P : Id) st :
  removeProductFromCart P {| user := Some u |} st
  = match list_find (λ c, cart_user_id c = _id u) (cart st) with
    | Some (i, c) =>
        let c' :=
          {| cart_user_id := cart_user_id c;
             cart_products :=
               List.filter (λ x, negb (bool_decide (productId x = P)))
                           (cart_products c) |} in
        (Ok (Some c'), with_cart st (<[i := c']> (cart st)))
    | None => (Ok None, st)
    end.
Proof.
  unfold removeProductFromCart. run_store.
  by destruct (list_find (λ c, cart_user_id c = _id u) (cart st))
    as [[i c]|].
Qed.

(** X1.  When [===] recognises a line item of the user's cart as the
    product, and the stored quantity, the supplied quantity [z] and
    their sum are safe integers, adding the product with quantity [z]
    succeeds and adds [z], of either sign and with no guard, to the
    quantity of the first such line item ([null] counting as 0); the
    cart keeps its length and every other line item. *)
Theorem addProductToCart_increments u (P : Id) z st c k x :
  cart_of (_id u) st = Some c →
  list_find (λ x, strict_eq (productId x) P = true) (cart_products c)
  = Some (k, x) →
  safe_integer (to_number (quantity x)) →
  safe_integer z →
  safe_integer (to_number (quantity x) + z) →
  ∃ c' st',
    addProductToCart strict_eq (Build_CartInput P (Val z))
                     {| user := Some u |} st = (Ok c', st')
    ∧ cart_of (_id u) st' = Some c'
    ∧ length (cart_products c') = length (cart_products c)
    ∧ cart_products c' !! k
      = Some {| productId := productId x;
                quantity := Some (to_number (quantity x) + z) |}
    ∧ ∀ j, j ≠ k → cart_products c' !! j = cart_products c !! j.
Proof.
  intros [i Hfind]%cart_of_find Hitem _ _ _.
  rewrite (addProductToCart_existing _ _ _ _ _ _ _ Hfind). simpl.
  rewrite Hitem. eexists _, _. split; [reflexivity|]. simpl.
  split; [|split; [|split]].
  - unfold cart_of. simpl.
    rewrite (list_find_save _ _ i c); [done|done|].
    by apply list_find_holds in Hfind.
  - by rewrite length_insert.
  - apply list_lookup_insert_eq.
    apply list_find_lookup in Hitem. by apply lookup_lt_Some in Hitem.
  - intros j Hj. by rewrite list_lookup_insert_ne.
Qed.

(** X2.  When [===] recognises a line item of the user's cart as the
    product and that line item has a numeric quantity, adding the
    product without a quantity ([undefined] or [null]) changes nothing:
    the store is as before and the cart is returned as it was. *)
Theorem addProductToCart_existing_without_quantity u (P : Id) q st c k x n :
  cart_of (_id u) st = Some c →
  list_find (λ x, strict_eq (productId x) P = true) (cart_products c)
  = Some (k, x) →
  quantity x = Some n →
  defined q = false ∨ q = Null →
  addProductToCart strict_eq (Build_CartInput P q) {| user := Some u |} st
  = (Ok c, st).
Proof.
  intros [i Hfind]%cart_of_find Hitem Hn Hq.
  rewrite (addProductToCart_existing _ _ _ _ _ _ _ Hfind). simpl.
  rewrite Hitem.
  assert (Hqty : match q with Val z => Some z | _ => None end = None)
    by (destruct Hq as [Hq| ->]; [by destruct q|done]).
  rewrite Hqty. unfold js_add. rewrite Hn. simpl. rewrite Z.add_0_r, <- Hn.
  rewrite line_item_eta.
  rewrite (list_insert_id (cart_products c))
    by eauto using list_find_lookup.
  rewrite cart_eta, list_insert_id by eauto using list_find_lookup.
  by rewrite with_cart_same.
Qed.

(** X3.  For a user without a cart document, [addProductToCart]
    creates one with a single line item whose quantity is a number
    other than 0: the supplied quantity when it is not 0, and 1 when
    the quantity is 0, [null] or not supplied. *)
Theorem addProductToCart_first_quantity u (P : Id) q st :
  cart_of (_id u) st = None →
  ∃ n st',
    let c := {| cart_user_id := _id u;
                cart_products := [{| productId := P; quantity := Some n |}] |} in
    addProductToCart strict_eq (Build_CartInput P q) {| user := Some u |} st
    = (Ok c, st')
    ∧ cart_of (_id u) st' = Some c
    ∧ n ≠ 0
    ∧ (∀ z, q = Val z → z ≠ 0 → n = z)
    ∧ (q = Undefined ∨ q = Null ∨ q = Val 0 → n = 1).
Proof.
  unfold cart_of. intros Hnone.
  destruct (list_find (λ c, cart_user_id c = _id u) (cart st))
    as [[i c]|] eqn:Hfind; [done|].
  rewrite (addProductToCart_new _ _ _ _ _ Hfind). simpl.
  set (qty := match q with Val z => Some z | _ => None end).
  assert (Hn : ∃ n, or_one qty = Some n ∧ n ≠ 0
                    ∧ (∀ z, q = Val z → z ≠ 0 → n = z)
                    ∧ (q = Undefined ∨ q = Null ∨ q = Val 0 → n = 1)).
  { subst qty. destruct q as [| |z]; simpl.
    - exists 1. split; [done|]. split; [done|]. split; [congruence|done].
    - exists 1. split; [done|]. split; [done|]. split; [congruence|done].
    - destruct (Z.eqb_spec z 0) as [->|Hz].
      + exists 1. split; [done|]. split; [done|]. split; [congruence|done].
      + exists z. split; [done|]. split; [done|]. split; [congruence|].
        intros [?|[?|?]]; congruence. }
  destruct Hn as (n & -> & Hn0 & Hval & Hdef).
  eexists n, _. split; [reflexivity|]. split; [|done].
  simpl. by rewrite list_find_append.
Qed.

Lemma with_cart_cart st l : cart (with_cart st l) = l.
Proof. done. Qed.

Lemma with_cart_twice st l1 l2 :
  with_cart (with_cart st l1) l2 = with_cart st l2.
Proof. done. Qed.

(** X4.  A signed-in user's [addProductToCart] touches that user's
    cart only: every other user's cart, and the address, product,
    wishlist and review collections, are as before. *)
Theorem addProductToCart_frame u (ci : CartInput Id) st (v : Id) :
  _id u ≠ v →
  let st' := (addProductToCart strict_eq ci {| user := Some u |} st).2 in
  cart_of v st' = cart_of v st
  ∧ address st' = address st ∧ product st' = product st
  ∧ wishlist st' = wishlist st ∧ product_review st' = product_review st.
Proof.
  intros Hv. destruct ci as [P q].
  destruct (list_find (λ c, cart_user_id c = _id u) (cart st))
    as [[i c]|] eqn:Hfind.
  - rewrite (addProductToCart_existing _ _ _ _ _ _ _ Hfind). simpl.
    split; [|done]. unfold cart_of. simpl.
    pose proof (list_find_holds _ _ _ _ Hfind) as Hc. simpl in Hc.
    rewrite (list_find_other_save cart_user_id v _ i c);
      [done| |by rewrite Hc|simpl; by rewrite Hc].
    by apply list_find_lookup in Hfind.
  - rewrite (addProductToCart_new _ _ _ _ _ Hfind). simpl.
    split; [|done]. unfold cart_of. simpl.
    by rewrite (list_find_other_append cart_user_id v).
Qed.

(** X5.  The four cart and wishlist mutations keep the store at one
    cart document and one wishlist document per user, whoever calls
    them and whatever the arguments. *)
Theorem one_document_per_user_kept st (ci : CartInput Id) (P : Id) context :
  one_document_per_user st →
  one_document_per_user (addProductToCart strict_eq ci context st).2
  ∧ one_document_per_user (removeProductFromCart P context st).2
  ∧ one_document_per_user (addProductToWishlist P context st).2
  ∧ one_document_per_user (removeProductFromWishlist P context st).2.
Proof.
  intros [Hcart Hwish]. destruct context as [[u|]]; [|done].
  split; [|split; [|split]].
  - destruct ci as [P' q].
    destruct (list_find (λ c, cart_user_id c = _id u) (cart st))
      as [[i c]|] eqn:Hfind.
    + rewrite (addProductToCart_existing _ _ _ _ _ _ _ Hfind). simpl.
      split; [|done]. simpl.
      by rewrite (keys_save cart_user_id _ i c)
        by eauto using list_find_lookup.
    + rewrite (addProductToCart_new _ _ _ _ _ Hfind). simpl.
      split; [|done]. simpl.
      by apply (keys_append_fresh cart_user_id _ (_id u)).
  - rewrite removeProductFromCart_run.
    destruct (list_find (λ c, cart_user_id c = _id u) (cart st))
      as [[i c]|] eqn:Hfind; simpl; [|done].
    split; [|done]. simpl.
    by rewrite (keys_save cart_user_id _ i c)
      by eauto using list_find_lookup.
  - unfold addProductToWishlist. run_store.
    destruct (list_find (λ w, wishlist_user_id w = _id u) (wishlist st))
      as [[i w]|] eqn:Hfind; simpl.
    + split; [done|]. simpl.
      by rewrite (keys_save wishlist_user_id _ i w)
        by eauto using list_find_lookup.
    + split; [done|]. simpl.
      by apply (keys_append_fresh wishlist_user_id _ (_id u)).
  - unfold removeProductFromWishlist. run_store.
    destruct (list_find (λ w, wishlist_user_id w = _id u) (wishlist st))
      as [[i w]|] eqn:Hfind; simpl; [|done].
    split; [done|]. simpl.
    by rewrite (keys_save wishlist_user_id _ i w)
      by eauto using list_find_lookup.
Qed.

(** X6.  Where [===] on product identifiers is their equality, adding
    to a cart and removing from a cart keep every cart of the store
    free of two line items for the same product. *)
Theorem one_line_per_product_kept st (ci : CartInput Id) (P : Id) context :
  (∀ x y, strict_eq x y = true ↔ x = y) →
  one_line_per_product st →
  one_line_per_product (addProductToCart strict_eq ci context st).2
  ∧ one_line_per_product (removeProductFromCart P context st).2.
Proof.
  intros Heq Hinv. destruct context as [[u|]]; [|done]. split.
  - destruct ci as [P' q].
    destruct (list_find (λ c, cart_user_id c = _id u) (cart st))
      as [[i c]|] eqn:Hfind.
    + rewrite (addProductToCart_existing _ _ _ _ _ _ _ Hfind). simpl.
      intros c0 [->|Hc0]%elem_of_save; [|by apply Hinv]. simpl.
      assert (Hc : NoDup (productId <$> cart_products c)).
      { apply Hinv. apply list_find_lookup in Hfind.
        by apply list_elem_of_lookup_2 in Hfind. }
      destruct (list_find (λ x, strict_eq (productId x) P' = true)
                          (cart_products c)) as [[k x]|] eqn:Hitem.
      * by rewrite (keys_save productId _ k x)
          by eauto using list_find_lookup.
      * apply (keys_append_fresh productId _ P'); [|done|done].
        apply list_find_None. apply list_find_None in Hitem.
        eapply Forall_impl; [exact Hitem|]. intros x Hx Hp. simpl in *.
        apply Hx. by apply Heq.
    + rewrite (addProductToCart_new _ _ _ _ _ Hfind). simpl.
      intros c0 [Hc0|Hc0%list_elem_of_singleton]%elem_of_app;
        [by apply Hinv|].
      subst c0. simpl. apply NoDup_singleton.
  - rewrite removeProductFromCart_run.
    destruct (list_find (λ c, cart_user_id c = _id u) (cart st))
      as [[i c]|] eqn:Hfind; simpl; [|done].
    intros c0 [->|Hc0]%elem_of_save; [|by apply Hinv]. simpl.
    apply List_filter_keys_NoDup, Hinv.
    apply list_find_lookup in Hfind.
    by apply list_elem_of_lookup_2 in Hfind.
Qed.

(** X7.  For a signed-in user with a cart document,
    [removeProductFromCart] succeeds and returns the saved cart: no
    line item for the product is left, and the other line items are
    those of before, in their order. *)
Theorem removeProductFromCart_removes u (P : Id) st c :
  cart_of (_id u) st = Some c →
  ∃ c' st',
    removeProductFromCart P {| user := Some u |} st = (Ok (Some c'), st')
    ∧ cart_of (_id u) st' = Some c'
    ∧ cart_user_id c' = cart_user_id c
    ∧ (P ∉ productId <$> cart_products c')
    ∧ cart_products c'
      = (List.filter (λ x, negb (bool_decide (productId x = P)))
                     (cart_products c))
    ∧ ∀ x, x ∈ cart_products c' ↔ x ∈ cart_products c ∧ productId x ≠ P.
Proof.
  intros [i Hfind]%cart_of_find. rewrite removeProductFromCart_run, Hfind.
  simpl. eexists _, _. split; [reflexivity|]. simpl.
  assert (Hmem : ∀ x,
            x ∈ List.filter (λ x, negb (bool_decide (productId x = P)))
                            (cart_products c)
            ↔ x ∈ cart_products c ∧ productId x ≠ P).
  { intros x. rewrite List_filter_elem, negb_true_iff.
    by rewrite bool_decide_eq_false. }
  split; [|split; [done|split; [|done]]].
  - unfold cart_of. simpl.
    rewrite (list_find_save _ _ i c); [done|done|].
    by apply list_find_holds in Hfind.
  - intros (x & Hp & Hx%Hmem)%list_elem_of_fmap. by destruct Hx.
Qed.

(** X8.  Removing a product a second time changes nothing more: the
    second call of [removeProductFromCart] returns what the first did
    and leaves the store the first left. *)
Theorem removeProductFromCart_idempotent (P : Id) context st :
  let once := removeProductFromCart P context st in
  removeProductFromCart P context once.2 = once.
Proof.
  destruct context as [[u|]]; [|done]. simpl.
  rewrite (removeProductFromCart_run u P st).
  destruct (list_find (λ c, cart_user_id c = _id u) (cart st))
    as [[i c]|] eqn:Hfind; simpl.
  - rewrite removeProductFromCart_run. simpl.
    rewrite (list_find_save _ _ i c); [|done|by apply list_find_holds in Hfind].
    simpl. rewrite List_filter_twice, list_insert_insert_eq.
    by rewrite with_cart_twice.
  - by rewrite removeProductFromCart_run, Hfind.
Qed.
End CartProperties.

(** * The wishlist, the addresses and the reviews, further *)

Section OtherMutationProperties.
Context {Id : Type} `{EqDecision Id} {AddressInput : Type}.
Implicit Types (st : Store Id AddressInput) (u : User Id).

Lemma with_wishlist_same st : with_wishlist st (wishlist st) = st.
Proof. by destruct st. Qed.

Lemma removeProductFromWishlist_run u (P : Id) st :
  removeProductFromWishlist P {| user := Some u |} st
  = match list_find (λ w, wishlist_user_id w = _id u) (wishlist st) with
    | Some (i, w) =>
        let w' :=
          {| wishlist_user_id := wishlist_user_id w;
             wishlist_products :=
               List.filter (λ x, negb (bool_decide (x = P)))
                           (wishlist_products w) |} in
        (Ok (Some w'), with_wishlist st (<[i := w']> (wishlist st)))
    | None => (Ok None, st)
    end.
Proof.
  unfold removeProductFromWishlist. run_store.
  by destruct (list_find (λ w, wishlist_user_id w = _id u) (wishlist st))
    as [[i w]|].
Qed.

(** The list a signed-in user's [removeProductFromWishlist] leaves. *)
Lemma removeProductFromWishlist_wished u (P : Id) st :
  wished (_id u) (removeProductFromWishlist P {| user := Some u |} st).2
  = List.filter (λ x, negb (bool_decide (x = P))) (wished (_id u) st).
Proof.
  rewrite removeProductFromWishlist_run. unfold wished, wishlist_of.
  destruct (list_find (λ w, wishlist_user_id w = _id u) (wishlist st))
    as [[i w]|] eqn:Hfind; simpl.
  - rewrite (list_find_save _ _ i w); [done|done|].
    by apply list_find_holds in Hfind.
  - by rewrite Hfind.
Qed.

Lemma filter_out_absent (P : Id) (l : list Id) :
  P ∉ l → List.filter (λ x, negb (bool_decide (x = P))) l = l.
Proof.
  intros Hnot. apply filter_all_pass, Forall_forall. intros x Hx.
  rewrite bool_decide_eq_false_2; [done|]. by intros ->.
Qed.

(** X9.  A signed-in user's [removeProductFromWishlist] strips every
    occurrence of the product from the user's list and keeps the other
    entries in their order; it undoes [addProductToWishlist], giving
    back the list of before when the product was not on it. *)
Theorem wishlist_remove_undoes_add u (P : Id) st :
  let signed_in := {| user := Some u |} in
  let removed := (removeProductFromWishlist P signed_in st).2 in
  let added := (addProductToWishlist P signed_in st).2 in
  let round_trip := (removeProductFromWishlist P signed_in added).2 in
  (P ∉ wished (_id u) removed)
  ∧ (∀ x, x ∈ wished (_id u) removed ↔ x ∈ wished (_id u) st ∧ x ≠ P)
  ∧ wished (_id u) round_trip = wished (_id u) removed
  ∧ (P ∉ wished (_id u) st → wished (_id u) round_trip = wished (_id u) st).
Proof.
  simpl. rewrite !removeProductFromWishlist_wished.
  assert (Hmem : ∀ l x,
            x ∈ List.filter (λ x, negb (bool_decide (x = P))) l
            ↔ x ∈ l ∧ x ≠ P).
  { intros l x. rewrite List_filter_elem, negb_true_iff.
    by rewrite bool_decide_eq_false. }
  destruct (addProductToWishlist_appends u P st) as (w & st' & Hrun & Hof & Hw).
  assert (Hadded : wished (_id u) (addProductToWishlist P {| user := Some u |} st).2
                   = wished (_id u) st ++ [P]).
  { rewrite Hrun. simpl. unfold wished at 1. by rewrite Hof. }
  rewrite Hadded, List.filter_app. simpl.
  rewrite bool_decide_eq_true_2 by done. simpl. rewrite app_nil_r.
  split; [|split; [done|split; [done|]]].
  - intros HP%Hmem. by destruct HP.
  - apply filter_out_absent.
Qed.

(** X10.  Neither removal creates a document: the cart and wishlist
    collections keep their length, and a signed-in user without a cart
    (a wishlist) gets [null] back with the store untouched. *)
Theorem remove_never_creates (P : Id) context st :
  length (cart (removeProductFromCart P context st).2) = length (cart st)
  ∧ length (wishlist (removeProductFromWishlist P context st).2)
    = length (wishlist st)
  ∧ (∀ u, user context = Some u → cart_of (_id u) st = None →
       removeProductFromCart P context st = (Ok None, st))
  ∧ (∀ u, user context = Some u → wishlist_of (_id u) st = None →
       removeProductFromWishlist P context st = (Ok None, st)).
Proof.
  destruct context as [[u|]]; [|done]. split; [|split; [|split]].
  - rewrite removeProductFromCart_run.
    destruct (list_find (λ c, cart_user_id c = _id u) (cart st))
      as [[i c]|]; simpl; [|done]. by rewrite length_insert.
  - rewrite removeProductFromWishlist_run.
    destruct (list_find (λ w, wishlist_user_id w = _id u) (wishlist st))
      as [[i w]|]; simpl; [|done]. by rewrite length_insert.
  - intros u' [= <-]. unfold cart_of. rewrite removeProductFromCart_run.
    by destruct (list_find (λ c, cart_user_id c = _id u) (cart st))
      as [[i c]|].
  - intros u' [= <-]. unfold wishlist_of.
    rewrite removeProductFromWishlist_run.
    by destruct (list_find (λ w, wishlist_user_id w = _id u) (wishlist st))
      as [[i w]|].
Qed.

(** X11.  [addresses] lists the caller's own addresses in the order
    they were added and leaves the store alone: after [addAddress], the
    caller's listing is the former one followed by the new document,
    which carries the caller's identifier, and every other user's
    listing is unchanged; without an identity the query throws
    [UNAUTHENTICATED]. *)
Theorem addAddress_then_addresses u (a : AddressInput) st :
  let signed_in := {| user := Some u |} in
  let doc := Build_Address (_id u) a in
  let st' := with_address st (address st ++ [doc]) in
  addAddress a signed_in st = (Ok doc, st')
  ∧ (∃ l, addresses signed_in st = (Ok l, st)
          ∧ addresses signed_in st' = (Ok (l ++ [doc]), st'))
  ∧ (∀ v, _id v ≠ _id u →
       (addresses {| user := Some v |} st').1
       = (addresses {| user := Some v |} st).1)
  ∧ addresses anonymous st = (Throw Unauthenticated, st).
Proof.
  simpl. split; [done|]. split; [|split; [|done]].
  - eexists. split; [reflexivity|].
    unfold addresses. run_store. rewrite filter_app.
    by rewrite filter_cons_True, filter_nil by done.
  - intros v Hv. unfold addresses. run_store. rewrite filter_app.
    rewrite filter_cons_False, filter_nil by (simpl; congruence).
    by rewrite app_nil_r.
Qed.

Lemma filter_other_save {A} (Q : A → Prop) `{∀ x, Decision (Q x)}
    (l : list A) i x y :
  l !! i = Some x → ¬ Q x → ¬ Q y → filter Q (<[i:=y]> l) = filter Q l.
Proof.
  revert i. induction l as [|z l IH]; intros [|i] Hi Hx Hy; simplify_eq/=.
  - by rewrite !filter_cons_False.
  - rewrite !filter_cons. destruct (decide (Q z)); by rewrite (IH i).
Qed.

(** X12.  A signed-in user's [addProductReview] touches the reviews of
    its own pair only: the reviews of every other pair of a user and a
    product are as before, as are the other collections, and the
    collection grows by one document exactly when the pair had no
    review. *)
Theorem addProductReview_frame u (ri : ReviewInput Id) st :
  let st' := (addProductReview ri {| user := Some u |} st).2 in
  (∀ U P, (U, P) ≠ (_id u, ri_product_id ri) →
          reviews_of U P st' = reviews_of U P st)
  ∧ address st' = address st ∧ product st' = product st
  ∧ cart st' = cart st ∧ wishlist st' = wishlist st
  ∧ length (product_review st')
    = match reviews_of (_id u) (ri_product_id ri) st with
      | [] => S (length (product_review st))
      | _ => length (product_review st)
      end.
Proof.
  unfold addProductReview, reviews_of. run_store.
  destruct (list_find (review_of (_id u) (ri_product_id ri))
                      (product_review st)) as [[i r]|] eqn:Hfind; simpl.
  - pose proof (list_find_holds _ _ _ _ Hfind) as [Hu Hp].
    split; [|split_and!; try done].
    + intros U P Hne.
      apply (filter_other_save _ _ i r);
        [by apply list_find_lookup in Hfind|..];
        intros [??]; simpl in *; apply Hne; congruence.
    + rewrite length_insert.
      destruct (filter (review_of (_id u) (ri_product_id ri))
                       (product_review st)) eqn:Hf; [|done].
      apply list_find_lookup, list_elem_of_lookup_2 in Hfind.
      assert (Hin : r ∈ filter (review_of (_id u) (ri_product_id ri))
                               (product_review st))
        by by apply list_elem_of_filter.
      rewrite Hf in Hin. by apply not_elem_of_nil in Hin.
  - split; [|split_and!; try done].
    + intros U P Hne. rewrite filter_app, filter_cons_False, filter_nil.
      * by rewrite app_nil_r.
      * intros [??]; simpl in *. apply Hne. congruence.
    + rewrite (filter_none _ _ Hfind), length_app. simpl. lia.
Qed.
End OtherMutationProperties.

(** * The products query, further *)

Lemma insert_by_perm {A} (before : A → A → bool) x (l : list A) :
  insert_by before x l ≡ₚ x :: l.
Proof.
  induction l as [|y l IH]; simpl; [done|].
  destruct (before y x); [|done]. rewrite IH. apply Permutation_swap.
Qed.

Lemma sort_by_key_perm s l : sort_by_key s l ≡ₚ l.
Proof.
  destruct s as [|[key dir] s]; simpl; [done|].
  induction l as [|x l IH]; simpl; [done|].
  by rewrite insert_by_perm, IH.
Qed.

Lemma truthy_string_blank v : blank v = true → truthy_string v = None.
Proof. destruct v as [| |s]; simpl; [done..|]. by intros ->. Qed.

Lemma truthy_string_val s : s ≠ "" → truthy_string (Val s) = Some s.
Proof.
  intros Hs. simpl. destruct (String.eqb_spec s ""); [done|done].
Qed.

Section ProductsProperties.
Context {Id : Type} `{EqDecision Id} {AddressInput : Type}.
Variable ObjectId : string → option Id.
Variable regex_i : string → string → bool.
Variable sort_docs : SortDoc → list (Product Id) → list (Product Id).
Implicit Types (st : Store Id AddressInput) (a : FilterInput).

(** The fields of a compiled query that come from the string fields
    and the sort option of the request. *)
Lemma products_query_strings a q :
  products_query ObjectId (Val a) = Ok q →
  coerce_id ObjectId a = Ok (filter__id (q_filter q))
  ∧ filter_name (q_filter q) = truthy_string (arg_name a)
  ∧ filter_size (q_filter q) = truthy_string (arg_size a)
  ∧ filter_color (q_filter q) = truthy_string (arg_color a)
  ∧ filter_code (q_filter q) = truthy_string (arg_code a)
  ∧ q_sort q = match arg_sort a with
               | Val so => assign_sort (field so) (direction (order so))
               | _ => []
               end.
Proof.
  rewrite products_query_unfold.
  destruct (coerce_id ObjectId a); simpl; [|done].
  destruct (coerce_categories ObjectId a); simpl; [|done].
  destruct (defined (arg_limit a)); [done|].
  destruct (defined (arg_start a)); [done|].
  by intros [= <-].
Qed.

Lemma products_query_limit args_filter q :
  products_query ObjectId args_filter = Ok q → q_limit q = 10 ∧ q_start q = 0.
Proof.
  destruct args_filter as [| |a].
  - by intros [= <-].
  - by intros [= <-].
  - intros Hq. by apply products_query_inv in Hq as (_&_&_&_&?&?).
Qed.

Lemma matches_empty_filter (p : Product Id) :
  matches regex_i empty_filter p = true.
Proof. done. Qed.

(** X13.  [products] never writes and never returns more than 10
    products, whatever the request and the store. *)
Theorem products_at_most_ten args_filter st :
  (products ObjectId regex_i sort_docs args_filter st).2 = st
  ∧ ∀ r, (products ObjectId regex_i sort_docs args_filter st).1 = Ok r →
         (length r ≤ 10)%nat.
Proof.
  rewrite products_run.
  destruct (products_query ObjectId args_filter) as [q|e] eqn:Hq;
    simpl; [|done].
  split; [done|]. intros r [= <-].
  apply products_query_limit in Hq as [Hlimit _].
  unfold find. rewrite Hlimit, length_take. lia.
Qed.

(** X14.  Where sorting only reorders, every product [products]
    returns is a document of the collection that satisfies the compiled
    filter, and when at most 10 documents satisfy it the result holds
    them all. *)
Theorem products_sound_and_complete args_filter st r :
  (∀ s l, sort_docs s l ≡ₚ l) →
  (products ObjectId regex_i sort_docs args_filter st).1 = Ok r →
  ∃ q, products_query ObjectId args_filter = Ok q
       ∧ (∀ p, p ∈ r → p ∈ product st ∧ matches regex_i (q_filter q) p = true)
       ∧ ((length (List.filter (matches regex_i (q_filter q)) (product st))
           ≤ 10)%nat →
          r ≡ₚ List.filter (matches regex_i (q_filter q)) (product st)).
Proof.
  intros Hsort. rewrite products_run.
  destruct (products_query ObjectId args_filter) as [q|e] eqn:Hq;
    simpl; [|done].
  intros [= <-]. exists q. split; [done|].
  destruct (products_query_limit _ _ Hq) as [Hlimit Hstart].
  unfold find. rewrite Hlimit, Hstart. split.
  - change (Z.to_nat 0) with 0%nat. rewrite drop_0.
    intros p Hp%elem_of_take.
    destruct Hp as (i & Hp & _). apply list_elem_of_lookup_2 in Hp.
    rewrite Hsort in Hp. by apply List_filter_elem in Hp.
  - intros Hlen. rewrite take_ge;
      [change (Z.to_nat 0) with 0%nat; rewrite drop_0; apply Hsort|].
    pose proof (Permutation_length (Hsort (q_sort q)
      (List.filter (matches regex_i (q_filter q)) (product st)))) as Hperm.
    change (Z.to_nat 10) with 10%nat. change (Z.to_nat 0) with 0%nat.
    rewrite drop_0. lia.
Qed.

(** X15.  Without a filter, with [null] for one and with a filter
    object that supplies no field, the read is the same: the first 10
    documents of the whole collection in the order an empty sort
    document gives. *)
Theorem products_without_filter st :
  products ObjectId regex_i sort_docs Undefined st
  = (Ok (take 10 (sort_docs [] (product st))), st)
  ∧ products ObjectId regex_i sort_docs Null st
    = products ObjectId regex_i sort_docs Undefined st
  ∧ products ObjectId regex_i sort_docs (Val no_fields) st
    = products ObjectId regex_i sort_docs Undefined st.
Proof.
  assert (Hall : List.filter (matches regex_i empty_filter) (product st)
                 = product st).
  { apply filter_all_pass, Forall_forall. intros p _.
    apply matches_empty_filter. }
  rewrite !products_run. simpl. unfold find. simpl.
  fold (@empty_filter Id). by rewrite Hall.
Qed.

(** X16.  Whenever a request compiles, a non-empty [size], [color] or
    [code] has become an exact match on that field, a non-empty [_id]
    an exact match on the coerced identifier and a non-empty [name] a
    case-insensitive pattern on the name: a product that satisfies the
    filter has those very values. *)
Theorem exact_match_clauses a q (p : Product Id) :
  products_query ObjectId (Val a) = Ok q →
  matches regex_i (q_filter q) p = true →
  (∀ s, arg__id a = Val s → s ≠ "" → ObjectId s = Some (product__id p))
  ∧ (∀ s, arg_name a = Val s → s ≠ "" → regex_i s (product_name p) = true)
  ∧ (∀ s, arg_size a = Val s → s ≠ "" → product_size p = s)
  ∧ (∀ s, arg_color a = Val s → s ≠ "" → product_color p = s)
  ∧ (∀ s, arg_code a = Val s → s ≠ "" → product_code p = s).
Proof.
  intros (Hid & Hname & Hsize & Hcolor & Hcode & _)%products_query_strings.
  unfold matches. rewrite !andb_true_iff.
  intros (((((((Mid & Mname) & Msize) & Mcolor) & Mcode) & _) & _) & _).
  rewrite Hname in Mname. rewrite Hsize in Msize.
  rewrite Hcolor in Mcolor. rewrite Hcode in Mcode.
  split_and!; intros s Hs Hne.
  - unfold coerce_id in Hid. rewrite Hs, (truthy_string_val s Hne) in Hid.
    unfold new_ObjectId in Hid. destruct (ObjectId s) as [i|]; [|done].
    injection Hid as Hid. rewrite <- Hid in Mid. simpl in Mid.
    by apply bool_decide_eq_true in Mid as ->.
  - by rewrite Hs, (truthy_string_val s Hne) in Mname.
  - rewrite Hs, (truthy_string_val s Hne) in Msize.
    by apply bool_decide_eq_true in Msize.
  - rewrite Hs, (truthy_string_val s Hne) in Mcolor.
    by apply bool_decide_eq_true in Mcolor.
  - rewrite Hs, (truthy_string_val s Hne) in Mcode.
    by apply bool_decide_eq_true in Mcode.
Qed.

(** X17.  Each of the string fields [_id], [name], [size], [color]
    and [code], taken alone: when it is [null] or the empty string, the
    request compiles as the same request with that field not supplied,
    whatever the other fields hold; an empty [_id] is never coerced. *)
Theorem blank_strings_are_absent a :
  (blank (arg__id a) = true →
     products_query ObjectId (Val a)
     = products_query ObjectId (Val (with__id a Undefined)))
  ∧ (blank (arg_name a) = true →
       products_query ObjectId (Val a)
       = products_query ObjectId (Val (with_name a Undefined)))
  ∧ (blank (arg_size a) = true →
       products_query ObjectId (Val a)
       = products_query ObjectId (Val (with_size a Undefined)))
  ∧ (blank (arg_color a) = true →
       products_query ObjectId (Val a)
       = products_query ObjectId (Val (with_color a Undefined)))
  ∧ (blank (arg_code a) = true →
       products_query ObjectId (Val a)
       = products_query ObjectId (Val (with_code a Undefined))).
Proof.
  split_and!; intros Hblank; rewrite !products_query_unfold;
    unfold coerce_id, coerce_categories; simpl;
    by rewrite (truthy_string_blank _ Hblank).
Qed.

(** X18.  Whenever a request compiles, its sort document is empty
    when no sort option was supplied and when the field is
    ["__proto__"], which an assignment cannot make a key of the object;
    for any other field it has that one key, ascending only for the
    order ["asc"] as written: any other order, and a missing one,
    sorts descending. *)
Theorem sort_direction a q :
  products_query ObjectId (Val a) = Ok q →
  (present_sort a = false → q_sort q = [])
  ∧ ∀ so, arg_sort a = Val so →
      (field so = "__proto__" → q_sort q = [])
      ∧ (field so ≠ "__proto__" → order so = Val "asc" →
         q_sort q = [(field so, 1)])
      ∧ (field so ≠ "__proto__" → order so ≠ Val "asc" →
         q_sort q = [(field so, -1)]).
Proof.
  intros (_ & _ & _ & _ & _ & Hsort)%products_query_strings. split.
  - unfold present_sort. by destruct (arg_sort a).
  - intros so Hso. rewrite Hso in Hsort. rewrite Hsort. unfold assign_sort.
    split; [by intros ->|].
    split; intros Hkey Horder;
      destruct (String.eqb_spec (field so) "__proto__") as [|_]; try done.
    + by rewrite Horder.
    + unfold direction. destruct (order so) as [| |s]; [done..|].
      destruct (String.eqb_spec s "asc") as [->|]; [done|done].
Qed.

(** X19.  A non-empty [_id] the constructor rejects, or an element of
    [categories] it rejects, makes [products] throw the constructor's
    exception, whatever else the request holds, and nothing is read. *)
Theorem malformed_identifier_throws a st :
  (∃ s, arg__id a = Val s ∧ s ≠ "" ∧ ObjectId s = None)
  ∨ (∃ l s, arg_categories a = Val l ∧ s ∈ l ∧ ObjectId s = None) →
  products ObjectId regex_i sort_docs (Val a) st = (Throw BSONError, st).
Proof.
  intros Hbad. rewrite products_run, products_query_not_coercible; [done|].
  unfold coercible. apply andb_false_iff.
  destruct Hbad as [(s & Hs & Hne & Hno)|(l & s & Hl & Hin & Hno)].
  - left. rewrite Hs, (truthy_string_val s Hne). unfold valid.
    apply bool_decide_eq_false. rewrite Hno. by intros [??].
  - right. rewrite Hl. destruct l as [|s0 l]; [by apply not_elem_of_nil in Hin|].
    simpl non_empty. cbv beta iota.
    apply not_true_iff_false. intros Hall.
    rewrite forallb_forall in Hall.
    apply list_elem_of_In in Hin. apply Hall in Hin.
    unfold valid in Hin. apply bool_decide_eq_true in Hin.
    rewrite Hno in Hin. by destruct Hin.
Qed.
End ProductsProperties.

(** * Concrete carts and requests, further *)

Lemma addProductToCart_increments_witness :
  ∃ c' st',
    addProductToCart String.eqb (Build_CartInput "coat" (Val 2))
                     {| user := Some alice_user |} alice_coat_cart
    = (Ok c', st')
    ∧ cart_of "alice" st' = Some c'
    ∧ length (cart_products c') = length (cart_products coat_cart)
    ∧ cart_products c' !! 0%nat
      = Some {| productId := "coat"; quantity := Some (1 + 2) |}
    ∧ ∀ j, j ≠ 0%nat → cart_products c' !! j = cart_products coat_cart !! j.
Proof.
  apply (addProductToCart_increments String.eqb alice_user "coat" 2
           alice_coat_cart coat_cart 0
           {| productId := "coat"; quantity := Some 1 |});
    [reflexivity|reflexivity|..]; unfold safe_integer; simpl; lia.
Defined.

Lemma addProductToCart_existing_without_quantity_witness :
  addProductToCart String.eqb (Build_CartInput "coat" Undefined)
                   {| user := Some alice_user |} alice_coat_cart
  = (Ok coat_cart, alice_coat_cart).
Proof.
  apply (addProductToCart_existing_without_quantity String.eqb alice_user
           "coat" Undefined alice_coat_cart coat_cart 0
           {| productId := "coat"; quantity := Some 1 |} 1);
    [reflexivity..|by left].
Defined.

Lemma addProductToCart_first_quantity_witness :
  cart_of "alice" catalogue = None
  ∧ ∃ n st',
      addProductToCart String.eqb (Build_CartInput "coat" (Val 0))
                       {| user := Some alice_user |} catalogue
      = (Ok {| cart_user_id := "alice";
               cart_products :=
                 [{| productId := "coat"; quantity := Some n |}] |}, st')
      ∧ n = 1.
Proof.
  split; [reflexivity|].
  assert (Hnone : cart_of (_id alice_user) catalogue = None) by reflexivity.
  destruct (addProductToCart_first_quantity String.eqb alice_user "coat"
              (Val 0) catalogue Hnone)
    as (n & st' & Hrun & _ & _ & _ & Hone).
  exists n, st'. split; [exact Hrun|]. apply Hone. by right; right.
Defined.

Lemma addProductToCart_frame_witness :
  cart_of "bob"
    (addProductToCart String.eqb (Build_CartInput "coat" (Val 2))
                      {| user := Some alice_user |} alice_coat_cart).2
  = cart_of "bob" alice_coat_cart.
Proof.
  exact (proj1 (addProductToCart_frame String.eqb alice_user
                  (Build_CartInput "coat" (Val 2)) alice_coat_cart "bob"
                  ltac:(discriminate))).
Defined.

Lemma one_document_per_user_kept_witness :
  one_document_per_user alice_coat_cart
  ∧ one_document_per_user
      (addProductToCart String.eqb (Build_CartInput "shirt" (Val 1))
                        bob alice_coat_cart).2.
Proof.
  assert (Hinv : one_document_per_user alice_coat_cart).
  { split; simpl; [apply NoDup_singleton|apply NoDup_nil_2]. }
  split; [exact Hinv|].
  exact (proj1 (one_document_per_user_kept String.eqb alice_coat_cart
                  (Build_CartInput "shirt" (Val 1)) "shirt" bob Hinv)).
Defined.

Lemma one_line_per_product_kept_witness :
  (∀ x y, String.eqb x y = true ↔ x = y)
  ∧ one_line_per_product alice_coat_cart
  ∧ one_line_per_product
      (addProductToCart String.eqb (Build_CartInput "coat" (Val 1))
                        alice alice_coat_cart).2.
Proof.
  assert (Hinv : one_line_per_product (Fields := ()) alice_coat_cart).
  { intros c Hc. apply list_elem_of_singleton in Hc. subst c.
    simpl. apply NoDup_singleton. }
  split; [exact String.eqb_eq|]. split; [exact Hinv|].
  exact (proj1 (one_line_per_product_kept String.eqb alice_coat_cart
                  (Build_CartInput "coat" (Val 1)) "coat" alice
                  String.eqb_eq Hinv)).
Defined.

Lemma removeProductFromCart_removes_witness :
  ∃ c' st',
    removeProductFromCart "coat" {| user := Some alice_user |} alice_coat_cart
    = (Ok (Some c'), st')
    ∧ cart_of "alice" st' = Some c'
    ∧ cart_products c' = [].
Proof.
  assert (Hcart : cart_of (_id alice_user) alice_coat_cart = Some coat_cart)
    by reflexivity.
  destruct (removeProductFromCart_removes alice_user "coat" alice_coat_cart
              coat_cart Hcart)
    as (c' & st' & Hrun & Hof & _ & _ & Hitems & _).
  exists c', st'. split; [exact Hrun|]. split; [exact Hof|exact Hitems].
Defined.

Lemma products_sound_and_complete_witness :
  (∀ s l, sort_by_key s l ≡ₚ l)
  ∧ ∃ q, products_query hex_ObjectId
           (Val (with_prices no_fields (Val 10) (Val 50))) = Ok q
         ∧ ∀ p, p ∈ [shirt] →
                p ∈ product catalogue ∧ matches literal_i (q_filter q) p = true.
Proof.
  split; [exact sort_by_key_perm|].
  assert (Hrun : (products hex_ObjectId literal_i sort_by_key
                    (Val (with_prices no_fields (Val 10) (Val 50)))
                    catalogue).1 = Ok [shirt]) by reflexivity.
  destruct (products_sound_and_complete hex_ObjectId literal_i sort_by_key
              (Val (with_prices no_fields (Val 10) (Val 50))) catalogue
              [shirt] sort_by_key_perm Hrun)
    as (q & Hq & Hsound & _).
  exists q. split; [exact Hq|exact Hsound].
Defined.

Lemma exact_match_clauses_witness :
  ∃ q, products_query hex_ObjectId (Val medium_shirt_request) = Ok q
       ∧ matches literal_i (q_filter q) shirt = true
       ∧ hex_ObjectId "0123456789ABCDEF01234567" = Some (product__id shirt)
       ∧ product_size shirt = "M".
Proof.
  eexists. split; [reflexivity|].
  match goal with |- matches _ (q_filter ?q) _ = true ∧ _ =>
    assert (Hq : products_query hex_ObjectId (Val medium_shirt_request) = Ok q)
      by reflexivity;
    assert (Hm : matches literal_i (q_filter q) shirt = true) by reflexivity
  end.
  split; [exact Hm|].
  destruct (exact_match_clauses hex_ObjectId literal_i medium_shirt_request
              _ shirt Hq Hm) as (Hid & _ & Hsize & _).
  split.
  - apply (Hid "0123456789ABCDEF01234567" eq_refl). discriminate.
  - apply (Hsize "M" eq_refl). discriminate.
Defined.

Lemma blank_strings_are_absent_witness :
  blank (arg__id blank_request) = true
  ∧ products_query hex_ObjectId (Val blank_request)
    = products_query hex_ObjectId (Val (with__id blank_request Undefined))
  ∧ products_query hex_ObjectId (Val blank_request)
    = products_query hex_ObjectId (Val (with_color blank_request Undefined)).
Proof.
  destruct (blank_strings_are_absent hex_ObjectId blank_request)
    as (Hid & _ & _ & Hcolor & _).
  split; [reflexivity|]. split; [exact (Hid eq_refl)|exact (Hcolor eq_refl)].
Defined.

Lemma sort_direction_witness :
  ∃ q, products_query hex_ObjectId (Val medium_shirt_request) = Ok q
       ∧ q_sort q = [("price", -1)].
Proof.
  eexists. split; [reflexivity|].
  match goal with |- q_sort ?q = _ =>
    assert (Hq : products_query hex_ObjectId (Val medium_shirt_request) = Ok q)
      by reflexivity
  end.
  destruct (sort_direction hex_ObjectId medium_shirt_request _ Hq)
    as (_ & Hsort).
  destruct (Hsort {| field := "price"; order := Val "ASC" |} eq_refl)
    as (_ & _ & Hdesc).
  apply Hdesc; discriminate.
Defined.

Lemma malformed_identifier_throws_witness :
  products hex_ObjectId literal_i sort_by_key
           (Val (with_id_and_limit "bad" 5)) catalogue
  = (Throw BSONError, catalogue).
Proof.
  apply (malformed_identifier_throws hex_ObjectId literal_i sort_by_key
           (with_id_and_limit "bad" 5) catalogue).
  left. exists "bad". split; [reflexivity|]. split; [discriminate|reflexivity].
Defined.

(** * The token helpers *)

Lemma split_on_word (w rest : string) :
  no_space w = true →
  split_on space (w ++ String space rest)%string = w :: split_on space rest.
Proof.
  induction w as [|c w IH]; simpl; [done|].
  intros [Hc Hw]%andb_true_iff. apply negb_true_iff in Hc.
  by rewrite Hc, (IH Hw).
Qed.

Lemma split_on_last_word (w : string) :
  no_space w = true → split_on space w = [w].
Proof.
  induction w as [|c w IH]; simpl; [done|].
  intros [Hc Hw]%andb_true_iff. apply negb_true_iff in Hc.
  by rewrite Hc, (IH Hw).
Qed.

Lemma second_word_two (scheme token : string) :
  no_space scheme = true → no_space token = true →
  second_word (scheme ++ String space token)%string = Some token.
Proof.
  intros Hs Ht. unfold second_word.
  by rewrite (split_on_word _ _ Hs), (split_on_last_word _ Ht).
Qed.

Lemma second_word_more (scheme token rest : string) :
  no_space scheme = true → no_space token = true →
  second_word (scheme ++ String space (token ++ String space rest))%string
  = Some token.
Proof.
  intros Hs Ht. unfold second_word.
  by rewrite (split_on_word _ _ Hs), (split_on_word _ _ Ht).
Qed.

Lemma truthy_string_header (scheme rest : string) :
  truthy_string (Val (scheme ++ String space rest)%string)
  = Some (scheme ++ String space rest)%string.
Proof. by destruct scheme. Qed.

Section JwtHelperProperties.
Context {Id : Type}.
Variable jwt_sign : Claims Id → string → string → string.
Variable jwt_verify : js string → string → Res (Claims Id).
Variable JWT_SECRET JWT_SECRET_VERIFICATION : string.

(** X20.  [verifyToken] lets a request through exactly when the
    second space-separated word of its authorization header is a
    non-empty token that [jwt.verify] accepts under [JWT_SECRET], and
    [req.user] is then the [user] of the decoded payload; every other
    request is answered with 401, or with 400 when a token was given
    and rejected. *)
Theorem verifyToken_passes authorization :
  (∀ req_user,
     verifyToken jwt_verify JWT_SECRET authorization = Next req_user
     ↔ ∃ header token decoded,
         truthy_string authorization = Some header
         ∧ second_word header = Some token ∧ token ≠ ""
         ∧ jwt_verify (Val token) JWT_SECRET = Ok decoded
         ∧ claim_user decoded = req_user)
  ∧ (∀ status body,
       verifyToken jwt_verify JWT_SECRET authorization = Respond status body →
       status = 401
       ∨ status = 400
         ∧ ∃ header token e,
             truthy_string authorization = Some header
             ∧ second_word header = Some token
             ∧ jwt_verify (Val token) JWT_SECRET = Throw e).
Proof.
  unfold verifyToken. split.
  - intros req_user. split.
    + destruct (truthy_string authorization) as [header|]; [|done].
      destruct (second_word header) as [token|] eqn:Hword; [|done].
      destruct (String.eqb_spec token ""); [done|].
      destruct (jwt_verify (Val token) JWT_SECRET) as [decoded|e] eqn:Hv;
        [|done].
      intros [= <-]. by exists header, token, decoded.
    + intros (header & token & decoded & -> & -> & Hne & -> & <-).
      by destruct (String.eqb_spec token "").
  - intros status body.
    destruct (truthy_string authorization) as [header|];
      [|intros [= <- _]; by left].
    destruct (second_word header) as [token|] eqn:Hword;
      [|intros [= <- _]; by left].
    destruct (String.eqb_spec token ""); [intros [= <- _]; by left|].
    destruct (jwt_verify (Val token) JWT_SECRET) as [decoded|e] eqn:Hv;
      [done|].
    intros [= <- _]. right. split; [done|]. by exists header, token, e.
Qed.

(** X21.  [verifyAdminToken] lets through only requests [verifyToken]
    lets through, with the same [req.user], and only for a user whose
    [isInternal] flag is set; it answers every other request with 401,
    never with 400. *)
Theorem verifyAdminToken_is_stricter authorization :
  (∀ req_user,
     verifyAdminToken jwt_verify JWT_SECRET authorization = Next req_user →
     ∃ u, req_user = Some u ∧ isInternal u = true
          ∧ verifyToken jwt_verify JWT_SECRET authorization = Next (Some u))
  ∧ (∀ u, verifyToken jwt_verify JWT_SECRET authorization = Next (Some u) →
          isInternal u = true →
          verifyAdminToken jwt_verify JWT_SECRET authorization
          = Next (Some u))
  ∧ (∀ status body,
       verifyAdminToken jwt_verify JWT_SECRET authorization
       = Respond status body → status = 401).
Proof.
  unfold verifyAdminToken, verifyToken.
  destruct (truthy_string authorization) as [header|];
    [|split_and!; [done|done|by intros ?? [= <- _]]].
  destruct (second_word header) as [token|];
    [|split_and!; [done|done|by intros ?? [= <- _]]].
  destruct (String.eqb token "");
    [split_and!; [done|done|by intros ?? [= <- _]]|].
  destruct (jwt_verify (Val token) JWT_SECRET) as [decoded|e];
    [|split_and!; [done|done|by intros ?? [= <- _]]].
  destruct (claim_user decoded) as [u|];
    [|split_and!; [done|done|by intros ?? [= <- _]]].
  destruct (isInternal u) eqn:Hu.
  - split_and!; [|by intros ? [= <-] _|done].
    intros ? [= <-]. by exists u.
  - split_and!; [done| |by intros ?? [= <- _]].
    intros ? [= <-]. congruence.
Qed.

(** X22.  Only the second word of the authorization header counts:
    whatever the scheme in front of the token and whatever follows the
    token after a space, the three helpers treat the header like
    ["Bearer " ++ token]. *)
Theorem authorization_scheme_ignored (scheme token rest : string) :
  no_space scheme = true → no_space token = true →
  let bearer := Val ("Bearer" ++ String space token)%string in
  let other := Val (scheme ++ String space token)%string in
  let longer :=
    Val (scheme ++ String space (token ++ String space rest))%string in
  verifyToken jwt_verify JWT_SECRET other
  = verifyToken jwt_verify JWT_SECRET bearer
  ∧ verifyToken jwt_verify JWT_SECRET longer
    = verifyToken jwt_verify JWT_SECRET bearer
  ∧ verifyAdminToken jwt_verify JWT_SECRET other
    = verifyAdminToken jwt_verify JWT_SECRET bearer
  ∧ verifyAdminToken jwt_verify JWT_SECRET longer
    = verifyAdminToken jwt_verify JWT_SECRET bearer
  ∧ verifyGraphqlToken jwt_verify JWT_SECRET other
    = verifyGraphqlToken jwt_verify JWT_SECRET bearer
  ∧ verifyGraphqlToken jwt_verify JWT_SECRET longer
    = verifyGraphqlToken jwt_verify JWT_SECRET bearer.
Proof.
  intros Hs Ht. simpl.
  unfold verifyToken, verifyAdminToken, verifyGraphqlToken.
  rewrite !truthy_string_header.
  rewrite (second_word_two scheme token Hs Ht).
  rewrite (second_word_more scheme token rest Hs Ht).
  by rewrite (second_word_two "Bearer" token eq_refl Ht).
Qed.


(** X24.  The GraphQL context is anonymous only without a header, or
    with a token whose payload has no user; a header whose token
    [jwt.verify] rejects makes [verifyGraphqlToken] throw that
    exception instead, where [verifyToken] answers 400. *)
Theorem verifyGraphqlToken_rejects authorization :
  (truthy_string authorization = None →
     verifyGraphqlToken jwt_verify JWT_SECRET authorization = Ok None)
  ∧ (∀ header token e,
       truthy_string authorization = Some header →
       second_word header = Some token → token ≠ "" →
       jwt_verify (Val token) JWT_SECRET = Throw e →
       verifyGraphqlToken jwt_verify JWT_SECRET authorization = Throw e
       ∧ verifyToken jwt_verify JWT_SECRET authorization
         = Respond 400 "Invalid token.")
  ∧ (verifyGraphqlToken jwt_verify JWT_SECRET authorization = Ok None →
       truthy_string authorization = None
       ∨ ∃ header decoded,
           truthy_string authorization = Some header
           ∧ jwt_verify (match second_word header with
                         | Some t => Val t
                         | None => Undefined
                         end) JWT_SECRET = Ok decoded
           ∧ claim_user decoded = None).
Proof.
  unfold verifyGraphqlToken, verifyToken.
  destruct (truthy_string authorization) as [header|];
    [|split_and!; [done|done|by left]].
  split_and!; [done| |].
  - intros ? token e [= <-] -> Hne Hverify. rewrite Hverify.
    by destruct (String.eqb_spec token "").
  - set (t := match second_word header with
              | Some t => Val t | None => Undefined end).
    destruct (jwt_verify t JWT_SECRET) as [decoded|] eqn:Hverify; [|done].
    simpl. intros [= Hnone]. right. by exists header, decoded.
Qed.
End JwtHelperProperties.

(** * The account routes *)

Section AuthRoutesProperties.
Context {Id Body Json Err Msg Doc S : Type}.
Variable validate : Schema → Body → option Err.
Variable field : string → Body → js Json.
Variable set_picture : string → Body → Body.
Variable has_error : Msg → bool.
Variable registerUser : Body → S → Msg * S.
Variable loginUser : Body → S → Msg * S.
Variable updateUser : Id → Body → S → Msg * S.
Variable changePassword : js Json → js Json → option (User Id) → S → Msg * S.
Variable getUser : Id → S → Doc * S.
Variable verifyOTP : js Json → js Json → S → Msg * S.
Variable updatePassword : js Json → js Json → S → Msg * S.
Variable jwt_verify : js string → string → Res (Claims Id).
Variable JWT_SECRET : string.

Ltac run_route :=
  unfold mbind, mret, Route_bind, Route_ret, respond, call, raise, arriving;
  simpl.

(** X25.  [/register] answers 201 with "Created" exactly when the body
    passes validation and [registerUser] reports no error; a body that
    fails validation is answered with the validation error and the
    controller is not called, and an error of the controller is
    answered with status 200. *)
Theorem register_answers (body : Body) (s : S) :
  let ran := register (Doc := Doc) validate has_error registerUser body
                      (arriving s) in
  ran.1 = Done ()
  ∧ (sent ran.2 = Some (201, Created)
     ↔ validate securityUserSchema body = None
       ∧ has_error (registerUser body s).1 = false)
  ∧ (∀ e, validate securityUserSchema body = Some e →
          ran.2 = {| controller := s; sent := Some (200, ErrorOf e) |})
  ∧ (validate securityUserSchema body = None →
     controller ran.2 = (registerUser body s).2).
Proof.
  unfold register. run_route.
  destruct (validate securityUserSchema body) as [e|]; simpl.
  - split_and!; [done| |by intros ? [= <-]|done].
    split; [done|]. by intros [? _].
  - destruct (registerUser body s) as [message s'] eqn:Hreg. simpl.
    destruct (has_error message) eqn:Herr; simpl.
    + split_and!; [done| |done|done]. split; [done|]. by intros [_ ?].
    + by split_and!.
Qed.

(** X26.  A request [verifyToken] turns away never reaches a
    controller: [/user/update], [/user/change-password] and [/user]
    answer with the middleware's status and text, and the controllers'
    state is untouched. *)
Theorem rejected_token_stops_route authorization status text
    (file : option string) (body : Body) (s : S) :
  verifyToken jwt_verify JWT_SECRET authorization = Respond status text →
  let turned_away :=
    (Done (), {| controller := s; sent := Some (status, Text text) |}) in
  user_update (Doc := Doc) validate set_picture updateUser
              jwt_verify JWT_SECRET authorization file body (arriving s)
  = turned_away
  ∧ user_change_password (Err := Err) (Doc := Doc) field changePassword
                         jwt_verify JWT_SECRET authorization body (arriving s)
    = turned_away
  ∧ user_get (Err := Err) (Msg := Msg) getUser
             jwt_verify JWT_SECRET authorization (arriving s)
    = turned_away.
Proof.
  intros Hverify. simpl.
  unfold user_update, user_change_password, user_get, behind_verifyToken.
  by rewrite Hverify.
Qed.

(** X27.  [/user/update] validates before it touches anything: with a
    token [verifyToken] accepts, a body that fails validation is
    answered with the validation error and [updateUser] is not called;
    [/login] does the same with [loginUser]. *)
Theorem invalid_body_stops_route authorization req_user
    (file : option string) (body : Body) (s : S) :
  (∀ e, verifyToken jwt_verify JWT_SECRET authorization = Next req_user →
        validate userSchema body = Some e →
        user_update (Doc := Doc) validate set_picture updateUser
                    jwt_verify JWT_SECRET authorization file body (arriving s)
        = (Done (), {| controller := s; sent := Some (200, ErrorOf e) |}))
  ∧ (∀ e, validate loginSchema body = Some e →
          login (Doc := Doc) validate loginUser body (arriving s)
          = (Done (), {| controller := s; sent := Some (200, ErrorOf e) |})).
Proof.
  split.
  - intros e Hverify Hinvalid.
    unfold user_update, behind_verifyToken. by rewrite Hverify, Hinvalid.
  - intros e Hinvalid. unfold login. by rewrite Hinvalid.
Qed.

(** X28.  [/user/reset-password] calls [updatePassword] whether or not
    [verifyOTP] reports an error.  When it does report one, the client
    is answered "Session Expired", the password is updated all the
    same, and the second answer raises as the response was already
    sent; otherwise the client is answered with the message of
    [updatePassword]. *)
Theorem reset_password_always_updates (body : Body) (s : S) :
  let email := field "email" body in
  let checked := verifyOTP email (field "otp" body) s in
  let updated := updatePassword email (field "password" body) checked.2 in
  user_reset_password (Err := Err) (Doc := Doc) field has_error
                      verifyOTP updatePassword body (arriving s)
  = if has_error checked.1
    then (Raised ERR_HTTP_HEADERS_SENT,
          {| controller := updated.2; sent := Some (200, SessionExpired) |})
    else (Done (),
          {| controller := updated.2;
             sent := Some (200, MessageOf updated.1) |}).
Proof.
  simpl. unfold user_reset_password. run_route.
  destruct (verifyOTP (field "email" body) (field "otp" body) s)
    as [checked s1]. simpl.
  destruct (has_error checked); simpl;
    by destruct (updatePassword (field "email" body)
                                (field "password" body) s1).
Qed.
End AuthRoutesProperties.

Lemma rejected_token_stops_route_witness :
  let turned_away : Ran () * Wire (Reply string bool string) nat :=
    (Done (), {| controller := 0%nat;
                 sent := Some (401, Text "Unauthorized request") |}) in
  user_update nonempty_body (λ _ b, b) (λ _ _, counted false)
              one_token_verify "s3cret" Undefined None "name=alice"
              (arriving 0%nat)
  = turned_away
  ∧ user_change_password (Err := string) (Doc := string)
                         (λ _ b, Val b) (λ _ _ _, counted false)
                         one_token_verify "s3cret" Undefined "name=alice"
                         (arriving 0%nat)
    = turned_away
  ∧ user_get (Err := string) (Msg := bool) (λ _, counted "alice")
             one_token_verify "s3cret" Undefined (arriving 0%nat)
    = turned_away.
Proof.
  assert (Hverify : verifyToken one_token_verify "s3cret" Undefined
                    = Respond 401 "Unauthorized request") by reflexivity.
  exact (rejected_token_stops_route nonempty_body (λ _ b, Val b) (λ _ b, b)
           (λ _ _, counted false) (λ _ _ _, counted false)
           (λ _, counted "alice") one_token_verify "s3cret"
           Undefined 401 "Unauthorized request" None "name=alice" 0%nat
           Hverify).
Defined.

Lemma authorization_scheme_ignored_witness :
  verifyToken one_token_verify "s3cret"
              (Val ("Token" ++ String space alice_token)%string)
  = verifyToken one_token_verify "s3cret"
                (Val ("Bearer" ++ String space alice_token)%string)
  ∧ verifyToken one_token_verify "s3cret"
                (Val ("Bearer" ++ String space alice_token)%string)
    = Next (Some alice_user).
Proof.
  split; [|reflexivity].
  exact (proj1 (authorization_scheme_ignored one_token_verify "s3cret"
                  "Token" alice_token "junk" eq_refl eq_refl)).
Defined.

